(** * The Morphlink autopilot: a model of [autopilot.js]

    The autopilot is a supervisor object ([AutopilotSystem]) that polls the
    monolith's [/api/health] endpoint, spawns or stops the redirector
    microservice as a child process and toggles the monolith's
    [redirectorStatus] flag through [/api/internal/set-redirector-status].

    The model is a shallow embedding:
    - the synchronous methods ([start], [stop], [stopMicroservice], the event
      handlers and timer callbacks) are computations in a small
      state-and-exception monad over a [World];
    - the [async] method [checkLoadAndScale] is cut at its [await]s: a pending
      invocation is a task whose continuation [Cont] names the [await] it is
      suspended at, and every segment between two [await]s is a synchronous
      computation;
    - the event loop is a labelled step function [step]: a label is one
      macrotask (a timer firing, an HTTP reply, a child-process event) or a
      call made by the owner of the object.

    Time is abstracted: timers fire in any order.  The monolith handles a
    status command at the moment its answer reaches the autopilot.  The
    top-level script around the class (signal handlers, the delayed first
    [start()]) is not part of the model. *)

From Stdlib Require Import ZArith List Bool Arith Lia.
From Stdlib Require String Ascii.
Import ListNotations.

(** ** Configuration (autopilot.js, lines 12-25) *)

Module CONFIG.
Definition LOAD_THRESHOLD : Z := 20.
Definition POLL_INTERVAL : Z := 10000.
End CONFIG.

(** ** Data *)

Definition pid := nat.
Definition timer := nat.

Inductive Signal := SIGTERM | SIGKILL.

(** The monolith's module-level flag [redirectorStatus] (index.js). *)
Inductive RedirectorStatus := active | inactive.

(** What [/api/health] reports for that flag. *)
Inductive ReportedState := integrated | separated.

(** The three branches of [makeScalingDecision]. *)
Inductive Action := ScaleUp | ScaleDown | NoAction.

(** Outcome of the load query [axios.get(.../api/health)]: a body carrying the
    load counter, or any failure (timeout, connection error, malformed body). *)
Inductive HealthResult := HealthOk (load : Z) | HealthFail.

(** Console lines, one constructor per call site of autopilot.js. *)
Inductive Line :=
| L_initialized                                   (* 39 *)
| L_loadThreshold                                 (* 40 *)
| L_pollInterval                                  (* 41 *)
| L_alreadyRunning                                (* 47 *)
| L_starting                                      (* 51 *)
| L_stopping                                      (* 66 *)
| L_currentLoad (load : Z) (st : ReportedState)   (* 92 *)
| L_healthCheckFailed (n mx : nat)                (* 102 *)
| L_tooManyErrors                                 (* 106 *)
| L_highLoad (load : Z)                           (* 118 *)
| L_scalingUp                                     (* 119 *)
| L_scaleUpCompleted                              (* 131 *)
| L_scaleUpFailed                                 (* 133 *)
| L_lowLoad (load : Z)                            (* 139 *)
| L_scalingDown                                   (* 140 *)
| L_scaleDownCompleted                            (* 152 *)
| L_scaleDownFailed                               (* 154 *)
| L_withinRange (load : Z) (microserviceActive : bool) (* 160-161 *)
| L_spawning                                      (* 168 *)
| L_exited (p : pid)                              (* 187 *)
| L_failedToStart                                 (* 192 *)
| L_startedOk                                     (* 200 *)
| L_noProcessToStop                               (* 212 *)
| L_terminating                                   (* 216 *)
| L_forceKilling                                  (* 225 *)
| L_errorStopping                                 (* 231 *)
| L_stopped                                       (* 235 *)
| L_settingStatus (s : RedirectorStatus)          (* 241 *)
| L_statusUpdated (s : RedirectorStatus)          (* 249 *)
| L_failedToSetStatus.                            (* 251 *)

(** What the supervisor does to the outside, in the order it does it. *)
Inductive Event :=
| Out (l : Line)                         (* console.log *)
| Err (l : Line)                         (* console.error *)
| Spawn (p : pid)                        (* spawn('node', [script]) *)
| Kill (p : pid) (s : Signal)            (* child.kill(s) *)
| GetHealth                              (* axios.get issued *)
| PostStatus (s : RedirectorStatus)      (* axios.post issued *)
| PostDone (s : RedirectorStatus)        (* axios.post answered by the monolith *)
| SetInterval (t : timer)
| ClearInterval (t : timer)
| SetTimeout (ms : Z).

(** The [await] a pending [checkLoadAndScale] is suspended at. *)
Inductive Cont :=
| AwaitGet                  (* line 84: axios.get *)
| AwaitStartup (p : pid)    (* line 123: the promise of startMicroservice *)
| AwaitSleepUp              (* line 126: sleep(2000) *)
| AwaitPostInactive         (* line 129: setMonolithRedirectorStatus('inactive') *)
| AwaitPostActive           (* line 144: setMonolithRedirectorStatus('active') *)
| AwaitSleepDown.           (* line 147: sleep(1000) *)

(** The fields of [AutopilotSystem] (constructor, lines 32-42). *)
Record AutopilotSystem := mkAutopilot {
  microserviceProcess : option pid;
  isMonitoring : bool;
  pollInterval : option timer;
  consecutiveErrors : nat;
  maxConsecutiveErrors : nat
}.

(** The supervisor object together with everything it acts on. *)
Record World := mkWorld {
  autopilot : AutopilotSystem;
  redirectorStatus : RedirectorStatus; (* the monolith's flag *)
  running : list pid;                  (* children that have not exited *)
  faulty : list pid;                   (* children on which kill() throws *)
  nextPid : pid;
  intervals : list timer;              (* active setInterval timers *)
  nextTimer : timer;
  startupTimers : list pid;            (* pending 1000ms timers of startMicroservice *)
  forceKillTimers : nat;               (* pending 5000ms timers of stopMicroservice *)
  tasks : list (nat * Cont);           (* pending checkLoadAndScale invocations *)
  nextTask : nat;
  trace : list Event                   (* newest event first *)
}.

(** [new AutopilotSystem()] next to a freshly started monolith. *)
Definition init : World :=
  {| autopilot := {| microserviceProcess := None; isMonitoring := false;
                     pollInterval := None; consecutiveErrors := 0;
                     maxConsecutiveErrors := 3 |};
     redirectorStatus := active;
     running := []; faulty := []; nextPid := 0;
     intervals := []; nextTimer := 0;
     startupTimers := []; forceKillTimers := 0;
     tasks := []; nextTask := 0;
     trace := [Out L_pollInterval; Out L_loadThreshold; Out L_initialized] |}.

(** ** Field updates *)

Definition set_microserviceProcess (v : option pid) (a : AutopilotSystem) :=
  mkAutopilot v (isMonitoring a) (pollInterval a) (consecutiveErrors a)
              (maxConsecutiveErrors a).
Definition set_isMonitoring (v : bool) (a : AutopilotSystem) :=
  mkAutopilot (microserviceProcess a) v (pollInterval a) (consecutiveErrors a)
              (maxConsecutiveErrors a).
Definition set_pollInterval (v : option timer) (a : AutopilotSystem) :=
  mkAutopilot (microserviceProcess a) (isMonitoring a) v (consecutiveErrors a)
              (maxConsecutiveErrors a).
Definition set_consecutiveErrors (v : nat) (a : AutopilotSystem) :=
  mkAutopilot (microserviceProcess a) (isMonitoring a) (pollInterval a) v
              (maxConsecutiveErrors a).

Definition with_autopilot (f : AutopilotSystem -> AutopilotSystem) (w : World) :=
  mkWorld (f (autopilot w)) (redirectorStatus w) (running w) (faulty w)
          (nextPid w) (intervals w) (nextTimer w) (startupTimers w)
          (forceKillTimers w) (tasks w) (nextTask w) (trace w).
Definition with_redirectorStatus (v : RedirectorStatus) (w : World) :=
  mkWorld (autopilot w) v (running w) (faulty w)
          (nextPid w) (intervals w) (nextTimer w) (startupTimers w)
          (forceKillTimers w) (tasks w) (nextTask w) (trace w).
Definition with_running (v : list pid) (w : World) :=
  mkWorld (autopilot w) (redirectorStatus w) v (faulty w)
          (nextPid w) (intervals w) (nextTimer w) (startupTimers w)
          (forceKillTimers w) (tasks w) (nextTask w) (trace w).
Definition with_faulty (v : list pid) (w : World) :=
  mkWorld (autopilot w) (redirectorStatus w) (running w) v
          (nextPid w) (intervals w) (nextTimer w) (startupTimers w)
          (forceKillTimers w) (tasks w) (nextTask w) (trace w).
Definition with_nextPid (v : pid) (w : World) :=
  mkWorld (autopilot w) (redirectorStatus w) (running w) (faulty w)
          v (intervals w) (nextTimer w) (startupTimers w)
          (forceKillTimers w) (tasks w) (nextTask w) (trace w).
Definition with_intervals (v : list timer) (w : World) :=
  mkWorld (autopilot w) (redirectorStatus w) (running w) (faulty w)
          (nextPid w) v (nextTimer w) (startupTimers w)
          (forceKillTimers w) (tasks w) (nextTask w) (trace w).
Definition with_nextTimer (v : timer) (w : World) :=
  mkWorld (autopilot w) (redirectorStatus w) (running w) (faulty w)
          (nextPid w) (intervals w) v (startupTimers w)
          (forceKillTimers w) (tasks w) (nextTask w) (trace w).
Definition with_startupTimers (v : list pid) (w : World) :=
  mkWorld (autopilot w) (redirectorStatus w) (running w) (faulty w)
          (nextPid w) (intervals w) (nextTimer w) v
          (forceKillTimers w) (tasks w) (nextTask w) (trace w).
Definition with_forceKillTimers (v : nat) (w : World) :=
  mkWorld (autopilot w) (redirectorStatus w) (running w) (faulty w)
          (nextPid w) (intervals w) (nextTimer w) (startupTimers w)
          v (tasks w) (nextTask w) (trace w).
Definition with_tasks (v : list (nat * Cont)) (w : World) :=
  mkWorld (autopilot w) (redirectorStatus w) (running w) (faulty w)
          (nextPid w) (intervals w) (nextTimer w) (startupTimers w)
          (forceKillTimers w) v (nextTask w) (trace w).
Definition with_nextTask (v : nat) (w : World) :=
  mkWorld (autopilot w) (redirectorStatus w) (running w) (faulty w)
          (nextPid w) (intervals w) (nextTimer w) (startupTimers w)
          (forceKillTimers w) (tasks w) v (trace w).
Definition with_trace (v : list Event) (w : World) :=
  mkWorld (autopilot w) (redirectorStatus w) (running w) (faulty w)
          (nextPid w) (intervals w) (nextTimer w) (startupTimers w)
          (forceKillTimers w) (tasks w) (nextTask w) v.

(** ** The monad of synchronous code

    A JavaScript statement either completes or throws, and keeps the state it
    reached in both cases. *)

Inductive Exn := E_network | E_kill.

Inductive Result (A : Type) := Ret (a : A) | Throw (e : Exn).
Arguments Ret {A} a.
Arguments Throw {A} e.

Definition M (A : Type) := World -> Result A * World.

Definition ret {A} (a : A) : M A := fun w => (Ret a, w).
Definition throw {A} (e : Exn) : M A := fun w => (Throw e, w).
Definition bind {A B} (m : M A) (k : A -> M B) : M B :=
  fun w => match m w with
           | (Ret a, w') => k a w'
           | (Throw e, w') => (Throw e, w')
           end.
Definition try_catch {A} (m : M A) (handler : Exn -> M A) : M A :=
  fun w => match m w with
           | (Ret a, w') => (Ret a, w')
           | (Throw e, w') => handler e w'
           end.
Definition gets {A} (f : World -> A) : M A := fun w => (Ret (f w), w).
Definition modify (f : World -> World) : M unit := fun w => (Ret tt, f w).

Declare Scope js_scope.
Delimit Scope js_scope with js.
Notation "x <- m ;; k" := (bind m (fun x => k))
  (at level 61, m at next level, right associativity) : js_scope.
Notation "m ;; k" := (bind m (fun _ => k))
  (at level 61, right associativity) : js_scope.
Local Open Scope js_scope.

Definition exec {A} (m : M A) (w : World) : World := snd (m w).

Definition emit (e : Event) : M unit :=
  modify (fun w => with_trace (e :: trace w) w).
Definition console_log (l : Line) : M unit := emit (Out l).
Definition console_error (l : Line) : M unit := emit (Err l).

Definition this {A} (f : AutopilotSystem -> A) : M A :=
  gets (fun w => f (autopilot w)).
Definition assign (f : AutopilotSystem -> AutopilotSystem) : M unit :=
  modify (with_autopilot f).

Definition mem (n : nat) (l : list nat) : bool := existsb (Nat.eqb n) l.
Definition remove_nat (n : nat) (l : list nat) : list nat :=
  filter (fun m => negb (Nat.eqb n m)) l.
Definition is_some {A} (o : option A) : bool :=
  match o with Some _ => true | None => false end.

(** ** The monolith's endpoints (index.js) *)

(** [GET /api/health]: [status: redirectorStatus === 'active' ? 'integrated'
    : 'separated']; the load is the database's counter, chosen by the
    environment. *)
Definition api_health (s : RedirectorStatus) : ReportedState :=
  match s with active => integrated | inactive => separated end.

(** [POST /api/internal/set-redirector-status]: [redirectorStatus = status].
    The autopilot only ever sends ['active'] or ['inactive'], so the 400
    branch of the handler is excluded by the type of [status]. *)
Definition api_set_redirector_status (status : RedirectorStatus) : M unit :=
  modify (with_redirectorStatus status).

(** ** Child processes and timers *)

(** [spawn('node', [CONFIG.MICROSERVICE_SCRIPT], ...)]: a new child. *)
Definition spawn : M pid :=
  p <- gets nextPid ;;
  modify (fun w => with_nextPid (S p) (with_running (p :: running w) w)) ;;
  emit (Spawn p) ;;
  ret p.

(** [child.kill(signal)]: throws on a child marked faulty, otherwise the
    signal is sent. *)
Definition kill (p : pid) (s : Signal) : M unit :=
  bad <- gets faulty ;;
  if mem p bad then throw E_kill else emit (Kill p s).

Definition setInterval : M timer :=
  t <- gets nextTimer ;;
  modify (fun w => with_nextTimer (S t) (with_intervals (t :: intervals w) w)) ;;
  emit (SetInterval t) ;;
  ret t.

Definition clearInterval (t : timer) : M unit :=
  modify (fun w => with_intervals (remove_nat t (intervals w)) w) ;;
  emit (ClearInterval t).

(** [sleep(ms)], lines 257-259; the task that awaits it is resumed by the
    step [LSleepDone]. *)
Definition sleep (ms : Z) : M unit := emit (SetTimeout ms).

(** ** Synchronous methods of [AutopilotSystem] *)

(** The callback of the timer set at lines 223-228. *)
Definition forceKillCallback : M unit :=
  h <- this microserviceProcess ;;
  match h with
  | Some p => console_log L_forceKilling ;; kill p SIGKILL
  | None => ret tt
  end.

(** [stopMicroservice], lines 210-236. *)
Definition stopMicroservice : M unit :=
  h <- this microserviceProcess ;;
  match h with
  | None => console_log L_noProcessToStop
  | Some p =>
      console_log L_terminating ;;
      try_catch
        (kill p SIGTERM ;;
         emit (SetTimeout 5000) ;;
         modify (fun w => with_forceKillTimers (S (forceKillTimers w)) w))
        (fun _ => console_error L_errorStopping) ;;
      assign (set_microserviceProcess None) ;;
      console_log L_stopped
  end.

(** [stop], lines 65-78. *)
Definition stop : M unit :=
  console_log L_stopping ;;
  assign (set_isMonitoring false) ;;
  t <- this pollInterval ;;
  match t with
  | Some i => clearInterval i ;; assign (set_pollInterval None)
  | None => ret tt
  end ;;
  h <- this microserviceProcess ;;
  match h with
  | Some _ => stopMicroservice
  | None => ret tt
  end.

(** A call of the async [checkLoadAndScale] runs to its first [await]: the
    request of line 84 is issued and the invocation becomes a pending task. *)
Definition fork (k : Cont) : M unit :=
  modify (fun w => with_nextTask (S (nextTask w))
                     (with_tasks ((nextTask w, k) :: tasks w) w)).

Definition checkLoadAndScale : M unit :=
  emit GetHealth ;;
  fork AwaitGet.

(** [start], lines 45-62. *)
Definition start : M unit :=
  m <- this isMonitoring ;;
  if m then console_log L_alreadyRunning
  else
    console_log L_starting ;;
    assign (set_isMonitoring true) ;;
    assign (set_consecutiveErrors 0) ;;
    t <- setInterval ;;
    assign (set_pollInterval (Some t)) ;;
    checkLoadAndScale.



(** ** [startMicroservice], lines 166-207 *)

(** The executor of the promise: the child is spawned, the handle is stored,
    the handlers are registered and the 1000ms timer is set.  The promise is
    settled later, by the timer or by the child's ['error'] event. *)
Definition startMicroservice : M pid :=
  console_log L_spawning ;;
  p <- spawn ;;
  assign (set_microserviceProcess (Some p)) ;;
  emit (SetTimeout 1000) ;;
  modify (fun w => with_startupTimers (p :: startupTimers w) w) ;;
  ret p.

(** The ['exit'] handler, lines 186-189. *)
Definition onExit (p : pid) : M unit :=
  console_log (L_exited p) ;;
  assign (set_microserviceProcess None).

(** The ['error'] handler, lines 191-195, up to its [reject(error)]. *)
Definition onError : M unit :=
  console_error L_failedToStart ;;
  assign (set_microserviceProcess None).

(** The callback of the 1000ms timer, lines 198-205: [true] when it resolves
    the promise, [false] when it rejects it. *)
Definition startupTimerCallback : M bool :=
  h <- this microserviceProcess ;;
  match h with
  | Some _ => console_log L_startedOk ;; ret true
  | None => ret false
  end.

(** ** [setMonolithRedirectorStatus], lines 239-254 *)

(** Up to the [await] of [axios.post]. *)
Definition setMonolithRedirectorStatus_send (status : RedirectorStatus) : M unit :=
  console_log (L_settingStatus status) ;;
  emit (PostStatus status).

(** From the answer on.  A delivered request runs the monolith's handler and
    the answer carries [currentStatus]; an undelivered one (timeout, refused
    connection) leaves the monolith untouched and the error is re-thrown. *)
Definition setMonolithRedirectorStatus_done (status : RedirectorStatus)
    (delivered : bool) : M unit :=
  if delivered then
    api_set_redirector_status status ;;
    emit (PostDone status) ;;
    console_log (L_statusUpdated status)
  else
    console_error L_failedToSetStatus ;;
    throw E_network.

(** ** [makeScalingDecision], lines 113-163 *)

(** The conditions of lines 117, 138 and 159. *)
Definition decision (currentLoad : Z) (currentStatus : ReportedState)
    (isMicroserviceRunning : bool) : Action :=
  if (currentLoad >? CONFIG.LOAD_THRESHOLD)%Z && negb isMicroserviceRunning
  then ScaleUp
  else if (currentLoad <=? CONFIG.LOAD_THRESHOLD)%Z && isMicroserviceRunning
  then ScaleDown
  else NoAction.

(** From the call to the first [await] of the chosen branch. *)
Definition makeScalingDecision (currentLoad : Z) (currentStatus : ReportedState)
    : M (option Cont) :=
  h <- this microserviceProcess ;;
  let isMicroserviceRunning := is_some h in
  match decision currentLoad currentStatus isMicroserviceRunning with
  | ScaleUp =>
      console_log (L_highLoad currentLoad) ;;
      console_log L_scalingUp ;;
      p <- startMicroservice ;;
      ret (Some (AwaitStartup p))
  | ScaleDown =>
      console_log (L_lowLoad currentLoad) ;;
      console_log L_scalingDown ;;
      setMonolithRedirectorStatus_send active ;;
      ret (Some AwaitPostActive)
  | NoAction =>
      console_log (L_withinRange currentLoad isMicroserviceRunning) ;;
      ret None
  end.

(** Scale-up, after the promise of [startMicroservice] is settled: on
    resolution [sleep(2000)] (line 126), on rejection the [catch] of line 132. *)
Definition scaleUp_afterStart (resolved : bool) : M (option Cont) :=
  if resolved then sleep 2000 ;; ret (Some AwaitSleepUp)
  else console_error L_scaleUpFailed ;; ret None.

(** Scale-up, after [sleep(2000)]: line 129 up to its [await]. *)
Definition scaleUp_afterSleep : M (option Cont) :=
  setMonolithRedirectorStatus_send inactive ;;
  ret (Some AwaitPostInactive).

(** Scale-up, after the answer to the post: lines 129-134. *)
Definition scaleUp_afterPost (delivered : bool) : M (option Cont) :=
  try_catch
    (setMonolithRedirectorStatus_done inactive delivered ;;
     console_log L_scaleUpCompleted)
    (fun _ => console_error L_scaleUpFailed) ;;
  ret None.

(** Scale-down, after the answer to the post: lines 144-147 and the [catch]
    of line 153. *)
Definition scaleDown_afterPost (delivered : bool) : M (option Cont) :=
  try_catch
    (setMonolithRedirectorStatus_done active delivered ;;
     sleep 1000 ;;
     ret (Some AwaitSleepDown))
    (fun _ => console_error L_scaleDownFailed ;; ret None).

(** Scale-down, after [sleep(1000)]: lines 150-155. *)
Definition scaleDown_afterSleep : M (option Cont) :=
  try_catch
    (stopMicroservice ;;
     console_log L_scaleDownCompleted)
    (fun _ => console_error L_scaleDownFailed) ;;
  ret None.

(** ** [checkLoadAndScale], lines 81-110, after the answer to the load query *)
Definition checkLoadAndScale_afterGet (r : HealthResult) : M (option Cont) :=
  match r with
  | HealthOk currentLoad =>
      currentStatus <- gets (fun w => api_health (redirectorStatus w)) ;;
      console_log (L_currentLoad currentLoad currentStatus) ;;
      assign (set_consecutiveErrors 0) ;;
      makeScalingDecision currentLoad currentStatus
  | HealthFail =>
      assign (fun a => set_consecutiveErrors (S (consecutiveErrors a)) a) ;;
      n <- this consecutiveErrors ;;
      mx <- this maxConsecutiveErrors ;;
      console_error (L_healthCheckFailed n mx) ;;
      (if mx <=? n then console_error L_tooManyErrors ;; stop else ret tt) ;;
      ret None
  end.

(** ** The event loop *)

Fixpoint lookup_task (tid : nat) (ts : list (nat * Cont)) : option Cont :=
  match ts with
  | [] => None
  | (i, k) :: r => if Nat.eqb tid i then Some k else lookup_task tid r
  end.

(** Store the new continuation of a task, or drop the task when it is done. *)
Fixpoint set_task (tid : nat) (k : option Cont) (ts : list (nat * Cont))
    : list (nat * Cont) :=
  match ts with
  | [] => []
  | (i, c) :: r =>
      if Nat.eqb tid i
      then match k with Some k' => (i, k') :: r | None => r end
      else (i, c) :: set_task tid k r
  end.

(** The task, if any, that awaits the promise of the spawn of [p]. *)
Fixpoint awaiting (p : pid) (ts : list (nat * Cont)) : option nat :=
  match ts with
  | [] => None
  | (i, AwaitStartup q) :: r => if Nat.eqb p q then Some i else awaiting p r
  | _ :: r => awaiting p r
  end.

Definition resume (tid : nat) (m : M (option Cont)) : M unit :=
  k <- m ;;
  modify (fun w => with_tasks (set_task tid k (tasks w)) w).

(** [resolve()] / [reject(error)] of the promise created for child [p]; a
    promise that is already settled ignores it. *)
Definition settle (p : pid) (resolved : bool) : M unit :=
  ts <- gets tasks ;;
  match awaiting p ts with
  | Some tid => resume tid (scaleUp_afterStart resolved)
  | None => ret tt
  end.

Inductive Label :=
| LStart                                   (* the owner calls start() *)
| LStop                                    (* the owner calls stop() *)
| LInterval (t : timer)                    (* the poll timer fires, line 56 *)
| LGetReply (tid : nat) (r : HealthResult) (* the load query is answered or fails *)
| LStartupTimer (p : pid)                  (* the timer of line 198 fires *)
| LSleepDone (tid : nat)                   (* a sleep() elapses *)
| LPostReply (tid : nat) (delivered : bool)(* the status command is answered or fails *)
| LForceKill                               (* a timer of line 223 fires *)
| LChildExit (p : pid)                     (* child p exits: 'exit' event *)
| LChildError (p : pid)                    (* 'error' event of child p *)
| LFault (p : pid).                        (* the OS starts refusing signals to p *)

(** A macrotask runs to completion; an exception that escapes it is uncaught:
    the top-level handler (line 293) stops the autopilot and exits the
    process, so the run has no successor state. *)
Definition top (m : M unit) (w : World) : option World :=
  match m w with
  | (Ret _, w') => Some w'
  | (Throw _, _) => None
  end.

Definition step (l : Label) (w : World) : option World :=
  match l with
  | LStart => top start w
  | LStop => top stop w
  | LInterval t =>
      if mem t (intervals w) then top checkLoadAndScale w else None
  | LGetReply tid r =>
      match lookup_task tid (tasks w) with
      | Some AwaitGet => top (resume tid (checkLoadAndScale_afterGet r)) w
      | _ => None
      end
  | LStartupTimer p =>
      if mem p (startupTimers w) then
        top (modify (fun w => with_startupTimers (remove_nat p (startupTimers w)) w) ;;
             resolved <- startupTimerCallback ;;
             settle p resolved) w
      else None
  | LSleepDone tid =>
      match lookup_task tid (tasks w) with
      | Some AwaitSleepUp => top (resume tid scaleUp_afterSleep) w
      | Some AwaitSleepDown => top (resume tid scaleDown_afterSleep) w
      | _ => None
      end
  | LPostReply tid delivered =>
      match lookup_task tid (tasks w) with
      | Some AwaitPostInactive => top (resume tid (scaleUp_afterPost delivered)) w
      | Some AwaitPostActive => top (resume tid (scaleDown_afterPost delivered)) w
      | _ => None
      end
  | LForceKill =>
      match forceKillTimers w with
      | S n => top (modify (with_forceKillTimers n) ;; forceKillCallback) w
      | O => None
      end
  | LChildExit p =>
      if mem p (running w) then
        top (modify (fun w => with_running (remove_nat p (running w)) w) ;;
             onExit p) w
      else None
  | LChildError p =>
      if p <? nextPid w then top (onError ;; settle p false) w else None
  | LFault p =>
      if p <? nextPid w then Some (with_faulty (p :: faulty w) w) else None
  end.

(** A run of the event loop. *)
Fixpoint run (ls : list Label) (w : World) : option World :=
  match ls with
  | [] => Some w
  | l :: r => match step l w with Some w' => run r w' | None => None end
  end.

(** ** One tick, run without interleaving

    The answers of the environment to one invocation of [checkLoadAndScale]. *)
Record Outcomes := mkOutcomes {
  health : HealthResult;   (* the load query *)
  startup : bool;          (* the child survives its first second *)
  post : bool              (* the status command reaches the monolith *)
}.

(** The event that resumes task [tid] suspended at [k]. *)
Definition next_label (o : Outcomes) (tid : nat) (k : Cont) : Label :=
  match k with
  | AwaitGet => LGetReply tid (health o)
  | AwaitStartup p => if startup o then LStartupTimer p else LChildError p
  | AwaitSleepUp | AwaitSleepDown => LSleepDone tid
  | AwaitPostInactive | AwaitPostActive => LPostReply tid (post o)
  end.

(** Resume task [tid] until it is done. *)
Fixpoint drive (fuel : nat) (o : Outcomes) (tid : nat) (w : World) : option World :=
  match lookup_task tid (tasks w) with
  | None => Some w
  | Some k =>
      match fuel with
      | O => None
      | S f =>
          match step (next_label o tid k) w with
          | Some w' => drive f o tid w'
          | None => None
          end
      end
  end.

(** An invocation of [checkLoadAndScale] run to completion; no branch has more
    than four [await]s. *)
Definition tick (o : Outcomes) (w : World) : option World :=
  match top checkLoadAndScale w with
  | Some w' => drive 4 o (nextTask w) w'
  | None => None
  end.

Fixpoint ticks (os : list Outcomes) (w : World) : option World :=
  match os with
  | [] => Some w
  | o :: r => match tick o w with Some w' => ticks r w' | None => None end
  end.

(** ** Notions used by the statements *)

(** The supervisor after [start()] and a first tick that saw a low load:
    monitoring, no worker, no invocation pending. *)
Definition monitoring : World :=
  Eval vm_compute in
    match run [LStart; LGetReply 0 (HealthOk 5)] init with
    | Some w => w
    | None => init
    end.

(** The supervisor after a completed scale-up: worker 0 runs and the
    monolith's redirector is inactive. *)
Definition scaled_up : World :=
  Eval vm_compute in
    match run [LStart; LGetReply 0 (HealthOk 25); LStartupTimer 0;
               LSleepDone 0; LPostReply 0 true] init with
    | Some w => w
    | None => init
    end.

(** The supervisor after a spawn failure, a [stop()], a new [start()] and a
    completed scale-up: worker 1 runs and the redirector is inactive. *)
Definition rescaled_up : World :=
  Eval vm_compute in
    match run [LStart; LGetReply 0 (HealthOk 25); LChildExit 0; LStartupTimer 0;
               LStop; LStart; LGetReply 1 (HealthOk 25); LStartupTimer 1;
               LSleepDone 1; LPostReply 1 true] init with
    | Some w => w
    | None => init
    end.

(** The traces of a call of [stopMicroservice]: its first console line in
    either branch, and the signals it sends. *)
Definition is_stop_event (e : Event) : bool :=
  match e with
  | Out L_terminating | Out L_noProcessToStop | Kill _ _ => true
  | _ => false
  end.

Definition is_spawn (e : Event) : bool :=
  match e with Spawn _ => true | _ => false end.

(** The events of [tr] that are not yet in the older trace [old]. *)
Definition since (old tr : list Event) : list Event :=
  firstn (length tr - length old) tr.

(** A signal has been sent to child [p]. *)
Fixpoint signalled (p : pid) (tr : list Event) : bool :=
  match tr with
  | [] => false
  | Kill q _ :: r => Nat.eqb p q || signalled p r
  | _ :: r => signalled p r
  end.

(** A worker process exists: the supervisor holds a handle, the child it
    names has not exited, and the supervisor has sent it no signal. *)
Definition worker_exists (w : World) : Prop :=
  exists p, microserviceProcess (autopilot w) = Some p /\ In p (running w) /\
            signalled p (trace w) = false.

(** The authority flag is not Separated without a worker. *)
Definition flag_safe (w : World) : Prop :=
  redirectorStatus w = inactive -> worker_exists w.

(** A scale-up that is past its start-up wait goes on to switch the flag;
    one that is under way has spawned its worker. *)
Definition past_startup (k : Cont) : bool :=
  match k with AwaitSleepUp | AwaitPostInactive => true | _ => false end.

Definition scaling_up (k : Cont) : bool :=
  match k with
  | AwaitStartup _ | AwaitSleepUp | AwaitPostInactive => true
  | _ => false
  end.

Definition flag_inactive (w : World) : bool :=
  match redirectorStatus w with inactive => true | active => false end.

(** The held worker is relied on: the flag is inactive, or a scale-up is
    about to make it so. *)
Definition relied_on (w : World) : bool :=
  is_some (microserviceProcess (autopilot w)) &&
  (flag_inactive w || existsb (fun t => past_startup (snd t)) (tasks w)).

(** The held worker must not be killed: the flag is inactive, or a scale-up
    is under way. *)
Definition exposed (w : World) : bool :=
  is_some (microserviceProcess (autopilot w)) &&
  (flag_inactive w || existsb (fun t => scaling_up (snd t)) (tasks w)).

Definition no_task (w : World) : bool :=
  match tasks w with [] => true | _ => false end.

(** The steps of an undisturbed supervisor.  Polls do not overlap: a poll
    is issued, by the timer or by [start()], only when no invocation is
    pending.  The handle is not cleared while the worker is relied on:
    [stop()], the error budget and a child's ['exit'] or ['error'] event
    come only when the flag is active and no scale-up is past its start-up
    wait, or when no handle is held.  And no force-kill timer fires on a
    held worker while the flag is inactive or a scale-up is under way. *)
Definition quiet (l : Label) (w : World) : bool :=
  match l with
  | LStart => isMonitoring (autopilot w) || no_task w
  | LInterval _ => no_task w
  | LStop | LChildExit _ | LChildError _ => negb (relied_on w)
  | LGetReply _ HealthFail =>
      (S (consecutiveErrors (autopilot w)) <? maxConsecutiveErrors (autopilot w))
      || negb (relied_on w)
  | LForceKill => negb (exposed w)
  | _ => true
  end.

Fixpoint quiet_run (ls : list Label) (w : World) : option World :=
  match ls with
  | [] => Some w
  | l :: r =>
      if quiet l w then
        match step l w with Some w' => quiet_run r w' | None => None end
      else None
  end.

(** What a pending invocation may rely on in an undisturbed run. *)
Definition cont_ok (k : Cont) (w : World) : Prop :=
  match k with
  | AwaitStartup _ =>
      forall p, microserviceProcess (autopilot w) = Some p ->
                signalled p (trace w) = false
  | AwaitSleepUp | AwaitPostInactive =>
      exists p, microserviceProcess (autopilot w) = Some p /\
                signalled p (trace w) = false
  | AwaitSleepDown => redirectorStatus w = active
  | AwaitGet | AwaitPostActive => True
  end.

Record undisturbed (w : World) : Prop := {
  u_flag : flag_safe w;
  u_handle : forall p, microserviceProcess (autopilot w) = Some p ->
                       In p (running w) /\ p < nextPid w;
  u_fresh : forall q, nextPid w <= q -> signalled q (trace w) = false;
  u_tasks : tasks w = [] \/ exists tid k, tasks w = [(tid, k)] /\ cont_ok k w
}.

(** ** Notions used by the further properties of the supervisor *)

(** The poll timer and the monitoring flag agree: while monitoring exactly
    the timer stored in [pollInterval] is active, otherwise none is. *)
Definition timer_consistent (w : World) : Prop :=
  (isMonitoring (autopilot w) = true /\
   exists t, pollInterval (autopilot w) = Some t /\ intervals w = [t]) \/
  (isMonitoring (autopilot w) = false /\
   pollInterval (autopilot w) = None /\ intervals w = []).

(** No SIGKILL is recorded after a SIGTERM to the same child (the trace is
    newest first). *)
Fixpoint term_then_kill_free (tr : list Event) : Prop :=
  match tr with
  | [] => True
  | Kill p SIGKILL :: older =>
      ~ In (Kill p SIGTERM) older /\ term_then_kill_free older
  | _ :: older => term_then_kill_free older
  end.

(** What the signals in the trace and the handle have to do with the
    children spawned so far. *)
Record signals_ok (w : World) : Prop := {
  s_trace : term_then_kill_free (trace w);
  s_known : forall p s, In (Kill p s) (trace w) -> p < nextPid w;
  s_handle : forall p, microserviceProcess (autopilot w) = Some p ->
                       p < nextPid w /\ ~ In (Kill p SIGTERM) (trace w)
}.

(** Console lines and load queries: the events of a tick that does nothing. *)
Definition is_passive (e : Event) : bool :=
  match e with
  | Out _ | Err _ | GetHealth => true
  | _ => false
  end.

(** The supervisor after [start(); start(); stop(); stop(); start()]. *)
Definition restarted : World :=
  Eval vm_compute in
    match run [LStart; LStart; LStop; LStop; LStart] init with
    | Some w => w
    | None => init
    end.

(** A scale-down in flight from [scaled_up]: the poll timer fired, the load
    query reported 5 and the status command is on its way. *)
Definition scaling_down : World :=
  Eval vm_compute in
    match run [LInterval 0; LGetReply 1 (HealthOk 5)] scaled_up with
    | Some w => w
    | None => init
    end.

(** The same once the command is answered: the flag is active again and the
    invocation sleeps before it stops the worker. *)
Definition scaled_down : World :=
  Eval vm_compute in
    match step (LPostReply 1 true) scaling_down with
    | Some w => w
    | None => init
    end.

(** The supervisor right after [start()]: the first load query is pending. *)
Definition first_query : World :=
  Eval vm_compute in
    match run [LStart] init with
    | Some w => w
    | None => init
    end.

(** The same once the query reported a load of 25: worker 0 is spawned and
    its first second is awaited. *)
Definition spawned : World :=
  Eval vm_compute in
    match step (LGetReply 0 (HealthOk 25)) first_query with
    | Some w => w
    | None => init
    end.

(** A force-kill timer that fires after a restart: scale-up, [stop()],
    [start()] under high load, then the timer of the stop. *)
Definition force_killed : World :=
  Eval vm_compute in
    match run [LStart; LGetReply 0 (HealthOk 25); LStartupTimer 0;
               LSleepDone 0; LPostReply 0 true; LStop; LStart;
               LGetReply 1 (HealthOk 25); LForceKill] init with
    | Some w => w
    | None => init
    end.

(** A restart while the stopped worker lingers: from [scaled_up], [stop()]
    sends SIGTERM to worker 0, [start()] follows at once under high load and
    a completed scale-up holds worker 1 while worker 0 has not exited yet. *)
Definition two_children : World :=
  Eval vm_compute in
    match run [LStop; LStart; LGetReply 1 (HealthOk 25); LStartupTimer 1;
               LSleepDone 1; LPostReply 1 true] scaled_up with
    | Some w => w
    | None => init
    end.

(** * The shared database module ([database.js])

    JavaScript strings are sequences of UTF-16 code units; [lit] gives the
    code units of an ASCII literal.  Timestamps ([new Date().toISOString()])
    are readings of the clock and are passed in. *)


Module Js.
Import String Ascii.

Definition jsstring := list N.

Definition lit (s : string) : jsstring :=
  map N_of_ascii (list_ascii_of_string s).

(** [a === b] on strings. *)
Fixpoint str_eqb (a b : jsstring) : bool :=
  match a, b with
  | [], [] => true
  | x :: a', y :: b' => N.eqb x y && str_eqb a' b'
  | _, _ => false
  end.

(** A string is truthy when it is not empty. *)
Definition truthy (s : jsstring) : bool :=
  match s with [] => false | _ => true end.

(** What a field of a parsed request body can hold.  An array or object is
    known by its reference: each body is parsed anew, so the arrays and
    objects of two requests are never the same.  Numbers are the integers
    here: the handlers test a number only against zero and for identity. *)
#[local] Unset Elimination Schemes.
Inductive value :=
| VUndefined                                        (* the field is absent *)
| VNull
| VBool (b : bool)
| VNumber (n : Z)
| VString (s : jsstring)
| VArray (ref : nat) (items : list value)
| VObject (ref : nat) (fields : list (jsstring * value)).
#[local] Set Elimination Schemes.

(** [!v] is false. *)
Definition truthy_value (v : value) : bool :=
  match v with
  | VUndefined | VNull => false
  | VBool b => b
  | VNumber n => negb (Z.eqb n 0)
  | VString s => truthy s
  | VArray _ _ | VObject _ _ => true
  end.

(** [a === b]: by value on primitives, by reference on arrays and objects. *)
Definition strict_eqb (a b : value) : bool :=
  match a, b with
  | VUndefined, VUndefined | VNull, VNull => true
  | VBool x, VBool y => Bool.eqb x y
  | VNumber x, VNumber y => Z.eqb x y
  | VString x, VString y => str_eqb x y
  | VArray r _, VArray r' _ | VObject r _, VObject r' _ => Nat.eqb r r'
  | _, _ => false
  end.

(** The values that [===] compares by what they hold. *)
Definition by_value (v : value) : bool :=
  match v with
  | VArray _ _ | VObject _ _ => false
  | _ => true
  end.

(** The last field of an object with the given name. *)
Fixpoint get_field (name : jsstring) (fields : list (jsstring * value))
    : value :=
  match fields with
  | [] => VUndefined
  | (k, v) :: r =>
      match get_field name r with
      | VUndefined => if str_eqb k name then v else VUndefined
      | later => later
      end
  end.

Definition str_active : jsstring := lit "active".
Definition str_inactive : jsstring := lit "inactive".
Definition str_Unknown : jsstring := lit "Unknown".
Definition str_microservice_prefix : jsstring := lit "http://localhost:3001/".
Definition str_localhost_prefix : jsstring := lit "http://localhost:3000/".

(** Sample data for the examples. *)
Definition alice : jsstring := lit "alice@example.com".
Definition bob : jsstring := lit "bob@example.com".
Definition secret : jsstring := lit "secret12".
Definition code_a : jsstring := lit "aaaaaaaa".
Definition code_b : jsstring := lit "bbbbbbbb".
Definition url_a : jsstring := lit "https://a.example/".
Definition url_b : jsstring := lit "https://b.example/".
Definition noon : jsstring := lit "2025-09-03T12:00:00.000Z".
Definition lit_bearer : jsstring := lit "Bearer ".
Definition str_health : jsstring := lit "health".
Definition str_length : jsstring := lit "length".
End Js.

Module Database.
Import Js.

Record User := mkUser {
  user_id : nat;
  email : value;                (* whatever the caller passed *)
  password : jsstring;
  user_createdAt : jsstring
}.

Record Link := mkLink {
  link_id : nat;
  shortCode : jsstring;
  longUrl : jsstring;
  userId : option nat;          (* a user id, or null *)
  link_createdAt : jsstring;
  clicks : nat
}.

Record ClickEvent := mkClickEvent {
  click_id : nat;
  click_shortCode : jsstring;
  timestamp : jsstring;
  userAgent : jsstring
}.

(** The fields of [Database] (constructor, lines 287-299);
    [loadResetInterval] records whether the 60s timer is active. *)
Record t := mk {
  users : list User;
  links : list Link;
  analytics : list ClickEvent;
  loadCounter : nat;
  loadResetInterval : bool
}.

(** [new Database()], with the timer set by [initLoadTracking]. *)
Definition new : t := mk [] [] [] 0 true.

(** The callback of the timer of [initLoadTracking], lines 303-305. *)
Definition resetLoad (db : t) : t :=
  mk (users db) (links db) (analytics db) 0 (loadResetInterval db).

(** [addUser], lines 309-318. *)
Definition addUser (email_ : value) (password_ now : jsstring) (db : t)
    : User * t :=
  let newUser := mkUser (List.length (users db) + 1) email_ password_ now in
  (newUser,
   mk (users db ++ [newUser]) (links db) (analytics db) (loadCounter db)
      (loadResetInterval db)).

(** [findUserByEmail], lines 320-322. *)
Definition findUserByEmail (email_ : value) (db : t) : option User :=
  find (fun user => strict_eqb (email user) email_) (users db).

(** [link.userId || null]: the id 0 is falsy. *)
Definition or_null (userId_ : option nat) : option nat :=
  match userId_ with
  | Some (S n) => Some (S n)
  | _ => None
  end.

(** [addLink], lines 325-336. *)
Definition addLink (shortCode_ longUrl_ : jsstring) (userId_ : option nat)
    (now : jsstring) (db : t) : Link * t :=
  let newLink :=
    mkLink (List.length (links db) + 1) shortCode_ longUrl_ (or_null userId_)
           now 0 in
  (newLink,
   mk (users db) (links db ++ [newLink]) (analytics db) (loadCounter db)
      (loadResetInterval db)).

(** [findLinkByShortCode], lines 338-340, and its twin [getLinkByShortCode],
    lines 342-344. *)
Definition findLinkByShortCode (shortCode_ : jsstring) (db : t) : option Link :=
  find (fun link => str_eqb (shortCode link) shortCode_) (links db).

Definition getLinkByShortCode (shortCode_ : jsstring) (db : t) : option Link :=
  find (fun link => str_eqb (shortCode link) shortCode_) (links db).

(** [getAllLinks], lines 346-348. *)
Definition getAllLinks (db : t) : list Link := links db.

(** [a === b] on user ids that may be null. *)
Definition id_eqb (a b : option nat) : bool :=
  match a, b with
  | Some x, Some y => Nat.eqb x y
  | None, None => true
  | _, _ => false
  end.

(** [getLinksByUserId], lines 350-352. *)
Definition getLinksByUserId (userId_ : option nat) (db : t) : list Link :=
  filter (fun link => id_eqb (userId link) userId_) (links db).

(** [Array.prototype.findIndex]; [None] stands for -1. *)
Fixpoint findIndex {A} (f : A -> bool) (l : list A) : option nat :=
  match l with
  | [] => None
  | x :: r => if f x then Some 0 else option_map S (findIndex f r)
  end.

(** [l.splice(i, 1)]: the removed elements and what is left of [l]. *)
Definition splice1 {A} (i : nat) (l : list A) : list A * list A :=
  (firstn 1 (skipn i l), firstn i l ++ skipn (S i) l).

(** [deleteLink], lines 354-360. *)
Definition deleteLink (shortCode_ : jsstring) (db : t) : option Link * t :=
  match findIndex (fun link => str_eqb (shortCode link) shortCode_) (links db) with
  | Some index =>
      let (removed, rest) := splice1 index (links db) in
      (hd_error removed,
       mk (users db) rest (analytics db) (loadCounter db)
          (loadResetInterval db))
  | None => (None, db)
  end.

(** [link.clicks++] on the link that [findLinkByShortCode] returns: the
    objects of the array are updated in place. *)
Fixpoint bump_clicks (shortCode_ : jsstring) (l : list Link) : list Link :=
  match l with
  | [] => []
  | link :: r =>
      if str_eqb (shortCode link) shortCode_
      then mkLink (link_id link) (shortCode link) (longUrl link) (userId link)
                  (link_createdAt link) (clicks link + 1) :: r
      else link :: bump_clicks shortCode_ r
  end.

(** [logClick], lines 363-379. *)
Definition logClick (shortCode_ now : jsstring) (db : t) : ClickEvent * t :=
  let clickEvent :=
    mkClickEvent (List.length (analytics db) + 1) shortCode_ now str_Unknown in
  (clickEvent,
   mk (users db) (bump_clicks shortCode_ (links db))
      (analytics db ++ [clickEvent]) (loadCounter db) (loadResetInterval db)).

(** [getAnalytics], lines 381-383. *)
Definition getAnalytics (db : t) : list ClickEvent := analytics db.

(** [incrementLoad], lines 386-388. *)
Definition incrementLoad (db : t) : t :=
  mk (users db) (links db) (analytics db) (loadCounter db + 1)
     (loadResetInterval db).

(** [getCurrentLoad], lines 390-392. *)
Definition getCurrentLoad (db : t) : nat := loadCounter db.

(** [cleanup], lines 395-399. *)
Definition cleanup (db : t) : t :=
  mk (users db) (links db) (analytics db) (loadCounter db) false.

(** The calls a client of the module can make, and the timer. *)
Inductive Op :=
| OpAddUser (email_ : value) (password_ now : jsstring)
| OpAddLink (shortCode_ longUrl_ : jsstring) (userId_ : option nat) (now : jsstring)
| OpDeleteLink (shortCode_ : jsstring)
| OpLogClick (shortCode_ now : jsstring)
| OpIncrementLoad
| OpResetLoad
| OpCleanup.

Definition apply (op : Op) (db : t) : t :=
  match op with
  | OpAddUser e p now => snd (addUser e p now db)
  | OpAddLink c u i now => snd (addLink c u i now db)
  | OpDeleteLink c => snd (deleteLink c db)
  | OpLogClick c now => snd (logClick c now db)
  | OpIncrementLoad => incrementLoad db
  | OpResetLoad => if loadResetInterval db then resetLoad db else db
  | OpCleanup => cleanup db
  end.

Definition run_ops (ops : list Op) (db : t) : t := fold_left (fun d op => apply op d) ops db.

(** The click events recorded for a short code. *)
Definition events_for (shortCode_ : jsstring) (db : t) : nat :=
  List.length (filter (fun e => str_eqb (click_shortCode e) shortCode_)
                      (analytics db)).

End Database.

(** The elements of [l] carry the ids 1, 2, ... in order. *)
Definition numbered {A} (id : A -> nat) (l : list A) : Prop :=
  forall i x, nth_error l i = Some x -> id x = i + 1.

(** A database with two links of which the older is then deleted. *)
Definition two_links : Database.t :=
  Eval vm_compute in
  Database.run_ops
    [Database.OpAddLink Js.code_a Js.url_a (Some 1) Js.noon;
     Database.OpAddLink Js.code_b Js.url_b (Some 1) Js.noon]
    Database.new.

(** * The monolith ([index.js])

    The state of the server process: its instance of the database module,
    the flag [redirectorStatus] of line 338, and the callbacks queued by
    [setImmediate] (the short codes whose click is still to be logged).
    A handler maps the request and the state to the response and the new
    state.  The bodies keep the fields that depend on the state; the
    [timestamp] and [uptime] fields of some bodies are clock readings and
    are left out.  [bcrypt], [jsonwebtoken] and the [URL] constructor are
    libraries: what they compute is a parameter. *)

Module Monolith.
Import Js.

Record Server := mkServer {
  database : Database.t;
  redirectorStatus : RedirectorStatus;
  immediates : list jsstring
}.

(** The process at startup: line 338 and [new Database()]. *)
Definition boot : Server := mkServer Database.new active [].

Definition with_database (db : Database.t) (s : Server) : Server :=
  mkServer db (redirectorStatus s) (immediates s).

Inductive ErrorMsg :=
| Err_tokenRequired          (* 346 *)
| Err_invalidToken           (* 351 *)
| Err_credentialsRequired    (* 377, 420 *)
| Err_passwordTooShort       (* 382 *)
| Err_userExists             (* 388 *)
| Err_invalidCredentials     (* 426, 432 *)
| Err_longUrlRequired        (* 461 *)
| Err_invalidUrl             (* 468 *)
| Err_linkNotFound           (* 510 *)
| Err_accessDenied           (* 515 *)
| Err_shortUrlNotFound       (* 576 *)
| Err_invalidStatus          (* 622 *)
| Err_internal.              (* 410, 447 *)

(** A user without its password: [const { password: _, ...userResponse }]. *)
Record UserResponse := mkUserResponse {
  ur_id : nat;
  ur_email : value;
  ur_createdAt : jsstring
}.

Definition without_password (u : Database.User) : UserResponse :=
  mkUserResponse (Database.user_id u) (Database.email u)
                 (Database.user_createdAt u).

Inductive Body :=
| BError (e : ErrorMsg)
| BUserCreated (user : UserResponse) (token : jsstring)
| BLoginSuccessful (user : UserResponse) (token : jsstring)
| BLinkCreated (link : Database.Link) (shortUrl : jsstring)
| BLinks (links : list Database.Link)
| BLinkDeleted
| BAnalytics (analytics : list Database.ClickEvent)
| BHealth (status : ReportedState) (load : nat)
| BStatusUpdated (previousStatus currentStatus : RedirectorStatus).

Inductive Response :=
| Json (code : nat) (body : Body)           (* res.status(code).json(body) *)
| Redirect (code : nat) (url : jsstring).   (* res.redirect(code, url) *)

(** What the libraries and the engine's coercions compute.  [bcrypt.hash]
    and [bcrypt.compare] reject data that is not a string; that case is
    decided in the handlers, so both are given on strings. *)
Record Libs := mkLibs {
  bcrypt_hash : jsstring -> jsstring -> jsstring;  (* salt, password *)
  bcrypt_compare : jsstring -> jsstring -> bool;   (* password, hash *)
  jwt_sign : nat -> value -> jsstring;             (* id, email *)
  jwt_verify : jsstring -> option (nat * value);
  valid_url : jsstring -> bool;                    (* new URL(s) does not throw *)
  coerced_lt_6 : value -> option bool
    (* [v < 6] for a string, array or object [v]; [None] when the
       conversion to a number throws *)
}.

(** [s.split(' ')]. *)
Fixpoint split_from (cur : jsstring) (s : jsstring) : list jsstring :=
  match s with
  | [] => [rev cur]
  | c :: r =>
      if N.eqb c 32 then rev cur :: split_from [] r
      else split_from (c :: cur) r
  end.

Definition split_space (s : jsstring) : list jsstring := split_from [] s.

(** The outcome of a middleware: it answered, or it called [next()] with
    [req.user] set. *)
Inductive Auth :=
| Answered (r : Response)
| Next (id : nat) (email_ : value).

Section Handlers.
Context (L : Libs).

(** [authenticateToken], lines 341-356. *)
Definition authenticateToken (authorization : option jsstring) : Auth :=
  let token :=
    match authorization with
    | None => None
    | Some authHeader =>
        if truthy authHeader then nth_error (split_space authHeader) 1
        else Some authHeader
    end in
  match token with
  | None => Answered (Json 401 (BError Err_tokenRequired))
  | Some tok =>
      if truthy tok then
        match jwt_verify L tok with
        | None => Answered (Json 403 (BError Err_invalidToken))
        | Some (id, email_) => Next id email_
        end
      else Answered (Json 401 (BError Err_tokenRequired))
  end.

(** [generateToken], lines 359-365. *)
Definition generateToken (user : Database.User) : jsstring :=
  jwt_sign L (Database.user_id user) (Database.email user).

(** [v.length] for a truthy value. *)
Definition length_of (v : value) : value :=
  match v with
  | VString s => VNumber (Z.of_nat (List.length s))
  | VArray _ items => VNumber (Z.of_nat (List.length items))
  | VObject _ fields => get_field str_length fields
  | _ => VUndefined
  end.

(** [v < 6]: the value is converted to a number; [undefined] gives [NaN],
    which is below nothing. *)
Definition lt_6 (v : value) : option bool :=
  match v with
  | VUndefined => Some false
  | VNull | VBool _ => Some true
  | VNumber n => Some (n <? 6)%Z
  | VString _ | VArray _ _ | VObject _ _ => coerced_lt_6 L v
  end.

(** [POST /api/auth/signup], lines 372-412, up to [await bcrypt.hash]: the
    answer of a rejected request, or the email and password to go on with.
    The fields of the body are whatever values the client sent. *)
Definition signup_check (email_ password_ : value) (s : Server)
    : Response + value * value :=
  if truthy_value email_ && truthy_value password_ then
    match lt_6 (length_of password_) with
    | None => inl (Json 500 (BError Err_internal))
    | Some true => inl (Json 400 (BError Err_passwordTooShort))
    | Some false =>
        match Database.findUserByEmail email_ (database s) with
        | Some _ => inl (Json 409 (BError Err_userExists))
        | None => inr (email_, password_)
        end
    end
  else inl (Json 400 (BError Err_credentialsRequired)).

(** The same handler from the resolution of the hash on. *)
Definition signup_store (e : value) (hashedPassword now : jsstring)
    (s : Server) : Response * Server :=
  let (newUser, db) := Database.addUser e hashedPassword now (database s) in
  (Json 201 (BUserCreated (without_password newUser) (generateToken newUser)),
   with_database db s).

(** What follows the check: [bcrypt.hash] rejects a password that is not a
    string and the [catch] of line 408 answers 500; otherwise the account is
    stored when the hash resolves, in the state [s] of that moment. *)
Definition signup_hashed (e password_ : value) (salt now : jsstring)
    (s : Server) : Response * Server :=
  match password_ with
  | VString p => signup_store e (bcrypt_hash L salt p) now s
  | _ => (Json 500 (BError Err_internal), s)
  end.

(** The whole handler when nothing else runs while the hash is computed. *)
Definition signup (email_ password_ : value) (salt now : jsstring)
    (s : Server) : Response * Server :=
  match signup_check email_ password_ s with
  | inl r => (r, s)
  | inr (e, p) => signup_hashed e p salt now s
  end.

(** Two signups that overlap: the second request arrives while the first
    waits for its hash, so both run their checks on the same state, and
    then the two hashes resolve in the order of the requests. *)
Definition signup_overlapped (email1 password1 email2 password2 : value)
    (salt1 salt2 now1 now2 : jsstring) (s : Server)
    : Response * Response * Server :=
  let check1 := signup_check email1 password1 s in
  let check2 := signup_check email2 password2 s in
  let (r1, s1) :=
    match check1 with
    | inl r => (r, s)
    | inr (e, p) => signup_hashed e p salt1 now1 s
    end in
  let (r2, s2) :=
    match check2 with
    | inl r => (r, s1)
    | inr (e, p) => signup_hashed e p salt2 now2 s1
    end in
  (r1, r2, s2).

(** [POST /api/auth/login], lines 415-449: it reads the state once, before
    its [await], and does not write it.  [bcrypt.compare] rejects a password
    that is not a string, and the [catch] of line 445 answers 500. *)
Definition login (email_ password_ : value) (s : Server) : Response :=
  if truthy_value email_ && truthy_value password_ then
    match Database.findUserByEmail email_ (database s) with
    | None => Json 401 (BError Err_invalidCredentials)
    | Some user =>
        match password_ with
        | VString p =>
            if bcrypt_compare L p (Database.password user)
            then Json 200 (BLoginSuccessful (without_password user)
                                            (generateToken user))
            else Json 401 (BError Err_invalidCredentials)
        | _ => Json 500 (BError Err_internal)
        end
    end
  else Json 400 (BError Err_credentialsRequired).

(** [POST /api/links] behind [authenticateToken], lines 456-490;
    [shortCode_] is what [nanoid(8)] returns. *)
Definition create_link (id : nat) (longUrl_ : option jsstring)
    (shortCode_ now : jsstring) (s : Server) : Response * Server :=
  match longUrl_ with
  | None => (Json 400 (BError Err_longUrlRequired), s)
  | Some url =>
      if truthy url then
        if valid_url L url then
          let (newLink, db) :=
            Database.addLink shortCode_ url (Some id) now (database s) in
          (Json 201 (BLinkCreated newLink (str_localhost_prefix ++ shortCode_)),
           with_database db s)
        else (Json 400 (BError Err_invalidUrl), s)
      else (Json 400 (BError Err_longUrlRequired), s)
  end.

(** [GET /api/links] behind [authenticateToken], lines 493-501. *)
Definition list_links (id : nat) (s : Server) : Response :=
  Json 200 (BLinks (Database.getLinksByUserId (Some id) (database s))).

(** [DELETE /api/links/:shortCode] behind [authenticateToken],
    lines 504-524. *)
Definition delete_link (id : nat) (shortCode_ : jsstring) (s : Server)
    : Response * Server :=
  match Database.getLinkByShortCode shortCode_ (database s) with
  | None => (Json 404 (BError Err_linkNotFound), s)
  | Some link =>
      if Database.id_eqb (Database.userId link) (Some id) then
        (Json 200 BLinkDeleted,
         with_database (snd (Database.deleteLink shortCode_ (database s))) s)
      else (Json 403 (BError Err_accessDenied), s)
  end.

(** A protected route: the middleware, then the handler. *)
Definition protected (authorization : option jsstring)
    (handler : nat -> Server -> Response * Server) (s : Server)
    : Response * Server :=
  match authenticateToken authorization with
  | Answered r => (r, s)
  | Next id _ => handler id s
  end.

End Handlers.

(** [logClick], lines 531-541: the click is logged in a later turn of the
    event loop. *)
Definition logClick (shortCode_ : jsstring) (s : Server) : Server :=
  mkServer (database s) (redirectorStatus s) (immediates s ++ [shortCode_]).

(** The event loop runs the oldest queued callback. *)
Definition run_immediate (now : jsstring) (s : Server) : Server :=
  match immediates s with
  | [] => s
  | shortCode_ :: rest =>
      mkServer (snd (Database.logClick shortCode_ now (database s)))
               (redirectorStatus s) rest
  end.

(** [GET /api/analytics], lines 544-551. *)
Definition get_analytics (s : Server) : Response :=
  Json 200 (BAnalytics (Database.getAnalytics (database s))).

(** [GET /:shortCode], lines 558-587. *)
Definition redirect (shortCode_ : jsstring) (s : Server) : Response * Server :=
  match redirectorStatus s with
  | inactive => (Redirect 302 (str_microservice_prefix ++ shortCode_), s)
  | active =>
      let db := Database.incrementLoad (database s) in
      match Database.findLinkByShortCode shortCode_ db with
      | None => (Json 404 (BError Err_shortUrlNotFound), with_database db s)
      | Some link =>
          (Redirect 302 (Database.longUrl link),
           logClick shortCode_ (with_database db s))
      end
  end.

(** [GET /api/health], lines 594-609. *)
Definition get_health (s : Server) : Response :=
  Json 200 (BHealth (api_health (redirectorStatus s))
                    (Database.getCurrentLoad (database s))).

(** The strings that [['active', 'inactive'].includes(status)] accepts. *)
Definition parse_status (status : jsstring) : option RedirectorStatus :=
  if str_eqb status str_active then Some active
  else if str_eqb status str_inactive then Some inactive
  else None.

(** [POST /api/internal/set-redirector-status], lines 616-640; [status] is
    the field of the body, when it is a string. *)
Definition set_redirector_status (status : option jsstring) (s : Server)
    : Response * Server :=
  match status with
  | None => (Json 400 (BError Err_invalidStatus), s)
  | Some str =>
      match parse_status str with
      | None => (Json 400 (BError Err_invalidStatus), s)
      | Some st =>
          (Json 200 (BStatusUpdated (redirectorStatus s) st),
           mkServer (database s) st (immediates s))
      end
  end.

(** What reaches the server process: requests, and the turns of its event
    loop that run a queued click or the load counter's timer. *)
Inductive Request :=
| ReqRedirect (shortCode_ : jsstring)
| ReqHealth
| ReqSetStatus (status : option jsstring)
| ReqSignup (email_ password_ : value) (salt now : jsstring)
| ReqLogin (email_ password_ : value)
| ReqCreateLink (authorization longUrl_ : option jsstring)
                (shortCode_ now : jsstring)
| ReqListLinks (authorization : option jsstring)
| ReqDeleteLink (authorization : option jsstring) (shortCode_ : jsstring)
| ReqAnalytics
| TurnImmediate (now : jsstring)
| TurnLoadReset.

Definition handle (L : Libs) (r : Request) (s : Server) : Server :=
  match r with
  | ReqRedirect c => snd (redirect c s)
  | ReqHealth => s
  | ReqSetStatus st => snd (set_redirector_status st s)
  | ReqSignup e p salt now => snd (signup L e p salt now s)
  | ReqLogin _ _ => s
  | ReqCreateLink a u c now =>
      snd (protected L a (fun id => create_link L id u c now) s)
  | ReqListLinks _ => s
  | ReqDeleteLink a c =>
      snd (protected L a (fun id => delete_link id c) s)
  | ReqAnalytics => s
  | TurnImmediate now => run_immediate now s
  | TurnLoadReset =>
      with_database (Database.apply Database.OpResetLoad (database s)) s
  end.

Definition serve (L : Libs) (rs : list Request) (s : Server) : Server :=
  fold_left (fun st r => handle L r st) rs s.

(** Run every queued click. *)
Fixpoint drain (now : jsstring) (n : nat) (s : Server) : Server :=
  match n with
  | O => s
  | S k => drain now k (run_immediate now s)
  end.

(** Libraries for the examples: the hash is the password after the salt,
    a token is the id before the email (when that is a string). *)
Definition toy_libs : Libs :=
  mkLibs (fun salt p => salt ++ p)
         (fun p h => str_eqb (skipn (List.length h - List.length p) h) p)
         (fun id e => N.of_nat id :: match e with VString x => x | _ => [] end)
         (fun t => match t with
                   | [] => None
                   | n :: e => Some (N.to_nat n, VString e)
                   end)
         truthy
         (fun _ => Some false).

End Monolith.

(** * The redirector microservice ([redirector.microservice.js])

    The autopilot starts it as a process of its own, so its [database] is
    its own instance of the database module. *)

Module Microservice.
Import Js.

Record Server := mkServer {
  database : Database.t;
  immediates : list jsstring
}.

Definition boot : Server := mkServer Database.new [].

Inductive Body :=
| BNotFound                          (* 46-49: 'Short URL not found' *)
| BHealth (load : nat)               (* 73-80 *)
| BRoot                              (* 91-100 *)
| BEndpointNotFound.                 (* 118-122 *)

Inductive Response :=
| Json (code : nat) (body : Body)
| Redirect (code : nat) (url : jsstring).

(** [logClick], lines 19-29. *)
Definition logClick (shortCode_ : jsstring) (s : Server) : Server :=
  mkServer (database s) (immediates s ++ [shortCode_]).

Definition run_immediate (now : jsstring) (s : Server) : Server :=
  match immediates s with
  | [] => s
  | shortCode_ :: rest =>
      mkServer (snd (Database.logClick shortCode_ now (database s))) rest
  end.

(** The handler of [/:shortCode], lines 32-66. *)
Definition redirect (shortCode_ : jsstring) (s : Server) : Response * Server :=
  let db := Database.incrementLoad (database s) in
  match Database.findLinkByShortCode shortCode_ db with
  | None => (Json 404 BNotFound, mkServer db (immediates s))
  | Some link =>
      (Redirect 302 (Database.longUrl link),
       logClick shortCode_ (mkServer db (immediates s)))
  end.

(** The handler of [/health], lines 69-87. *)
Definition get_health (s : Server) : Response :=
  Json 200 (BHealth (Database.getCurrentLoad (database s))).

(** The handler of [/], lines 90-101. *)
Definition get_root (s : Server) : Response := Json 200 BRoot.

(** The paths the handlers are registered under.  A request path is the
    list of its segments: [/abc] and [/abc/] are [[abc]], [/] is [[]]. *)
Inductive Pattern :=
| PParam                 (* '/:shortCode' *)
| PLit (s : jsstring)    (* '/health' *)
| PRoot                  (* '/' *)
| PStar.                 (* '*' *)

Inductive Handler := HRedirect | HHealth | HRoot | HNotFound.

(** The handlers in the order of their registration (lines 32, 69, 90 and
    117): Express hands a request to the first one whose path matches. *)
Definition routes : list (Pattern * Handler) :=
  [(PParam, HRedirect); (PLit str_health, HHealth); (PRoot, HRoot);
   (PStar, HNotFound)].

(** Routing ignores the case of ASCII letters. *)
Definition lower (c : N) : N :=
  if (N.leb 65 c && N.leb c 90)%bool then (c + 32)%N else c.

Definition matches (p : Pattern) (path : list jsstring) : bool :=
  match p, path with
  | PParam, [seg] => truthy seg
  | PLit s, [seg] => str_eqb (map lower seg) (map lower s)
  | PRoot, [] => true
  | PStar, _ => true
  | _, _ => false
  end.

Definition dispatch (path : list jsstring) : option Handler :=
  option_map snd (find (fun r => matches (fst r) path) routes).

(** A GET request. *)
Definition get (path : list jsstring) (s : Server) : Response * Server :=
  match dispatch path with
  | Some HRedirect => redirect (hd [] path) s
  | Some HHealth => (get_health s, s)
  | Some HRoot => (get_root s, s)
  | _ => (Json 404 BEndpointNotFound, s)
  end.

(** What reaches the process: requests, and the turns of its event loop
    that run a queued click or the load counter's timer. *)
Inductive Request :=
| ReqGet (path : list jsstring)
| TurnImmediate (now : jsstring)
| TurnLoadReset.

Definition handle (r : Request) (s : Server) : Server :=
  match r with
  | ReqGet path => snd (get path s)
  | TurnImmediate now => run_immediate now s
  | TurnLoadReset =>
      mkServer (Database.apply Database.OpResetLoad (database s))
               (immediates s)
  end.

Definition serve (rs : list Request) (s : Server) : Server :=
  fold_left (fun st r => handle r st) rs s.

End Microservice.

(** * The burst test ([rate-limit-test.js]) *)

Module RateLimitTest.

(** What [createLink] resolves to, lines 736-762: [{success: true, data}] or
    [{success: false, error, status}], where [status] is undefined when the
    request got no response. *)
Record Result := mkResult {
  success : bool;
  status : option nat
}.

(** The outcome of the [axios.post] of [createLink]. *)
Inductive Outcome :=
| Resolved                       (* a 2xx answer *)
| Rejected (code : option nat).  (* an error, with the status if any *)

Definition createLink (o : Outcome) : Result :=
  match o with
  | Resolved => mkResult true None
  | Rejected code => mkResult false code
  end.

(** [axios.post] resolves on a 2xx status and rejects on any other. *)
Definition axios_outcome (code : nat) : Outcome :=
  if ((200 <=? code) && (code <? 300))%bool then Resolved
  else Rejected (Some code).

(** What the monolith does with the request of [createLink], lines 736-745:
    the body is [{ url }], so it has no [longUrl]. *)
Definition post_link (L : Monolith.Libs) (authorization : option Js.jsstring)
    (shortCode_ now : Js.jsstring) (s : Monolith.Server)
    : Monolith.Response * Monolith.Server :=
  Monolith.protected L authorization
    (fun id => Monolith.create_link L id None shortCode_ now) s.

Definition is_429 (s : option nat) : bool :=
  match s with Some n => Nat.eqb n 429 | None => false end.

(** The three counts of [runLoadTest], lines 791-794. *)
Definition successful (rs : list Result) : nat :=
  List.length (filter (fun r => success r) rs).
Definition rateLimited (rs : list Result) : nat :=
  List.length (filter (fun r => is_429 (status r)) rs).
Definition failed (rs : list Result) : nat :=
  List.length (filter (fun r => negb (success r) && negb (is_429 (status r))) rs).

End RateLimitTest.

(** Requests that are not status commands. *)
Definition not_status_command (r : Monolith.Request) : bool :=
  match r with
  | Monolith.ReqSetStatus _ => false
  | _ => true
  end.

(** The string the autopilot sends for a status. *)
Definition status_string (st : RedirectorStatus) : Js.jsstring :=
  match st with
  | active => Js.str_active
  | inactive => Js.str_inactive
  end.

(** The part of a string before its first space. *)
Fixpoint until_space (s : Js.jsstring) : Js.jsstring :=
  match s with
  | [] => []
  | c :: r => if N.eqb c 32 then [] else c :: until_space r
  end.

(** The short codes of [cs] that have a link in [db]. *)
Definition known_codes (cs : list Js.jsstring) (db : Database.t)
    : list Js.jsstring :=
  filter (fun c => is_some (Database.findLinkByShortCode c db)) cs.

(** A monolith with one link, owned by user 1. *)
Definition one_link_server : Monolith.Server :=
  Eval vm_compute in
    Monolith.mkServer
      (snd (Database.addLink Js.code_a Js.url_a (Some 1) Js.noon Database.new))
      active [].

(** A microservice that stores no link and has no click queued. *)
Definition microservice_empty (s : Microservice.Server) : Prop :=
  Database.links (Microservice.database s) = [] /\
  Microservice.immediates s = [].

(** ** Symbolic execution *)

Ltac js :=
  cbv beta iota zeta delta
    [top resume settle
     checkLoadAndScale checkLoadAndScale_afterGet makeScalingDecision
     scaleUp_afterStart scaleUp_afterSleep scaleUp_afterPost
     scaleDown_afterPost scaleDown_afterSleep
     setMonolithRedirectorStatus_send setMonolithRedirectorStatus_done
     startMicroservice startupTimerCallback onExit onError
     start stop stopMicroservice forceKillCallback fork
     spawn kill setInterval clearInterval sleep api_set_redirector_status
     ret throw bind try_catch gets modify emit console_log console_error
     this assign exec is_some
     set_microserviceProcess set_isMonitoring set_pollInterval
     set_consecutiveErrors
     with_autopilot with_redirectorStatus with_running with_faulty with_nextPid
     with_intervals with_nextTimer with_startupTimers with_forceKillTimers
     with_tasks with_nextTask with_trace
     autopilot redirectorStatus running faulty nextPid intervals nextTimer
     startupTimers forceKillTimers tasks nextTask trace
     microserviceProcess isMonitoring pollInterval consecutiveErrors
     maxConsecutiveErrors health startup post fst snd].

Lemma mem_head n l : mem n (n :: l) = true.
Proof. unfold mem; simpl. now rewrite Nat.eqb_refl. Qed.

Lemma ltb_succ n : (n <? S n) = true.
Proof. apply Nat.ltb_lt. lia. Qed.

Lemma mem_In n l : mem n l = true <-> In n l.
Proof.
  unfold mem. rewrite existsb_exists. split.
  - intros [x [Hx E]]. apply Nat.eqb_eq in E. now subst.
  - intros H. exists n. split; [assumption | apply Nat.eqb_refl].
Qed.

Lemma remove_nat_not_In n l : ~ In n (remove_nat n l).
Proof.
  unfold remove_nat. rewrite filter_In. intros [_ H].
  now rewrite Nat.eqb_refl in H.
Qed.

Lemma remove_nat_In n m l : In m (remove_nat n l) -> In m l.
Proof. unfold remove_nat. rewrite filter_In. tauto. Qed.

Lemma drive_S f o tid w :
  drive (S f) o tid w =
  match lookup_task tid (tasks w) with
  | None => Some w
  | Some k => match step (next_label o tid k) w with
              | Some w' => drive f o tid w'
              | None => None
              end
  end.
Proof. reflexivity. Qed.

Lemma drive_O o tid w :
  drive 0 o tid w =
  match lookup_task tid (tasks w) with None => Some w | Some _ => None end.
Proof. reflexivity. Qed.

(** Run the model forward as far as the known data decide. *)
Ltac sx := repeat first
  [ rewrite drive_S | rewrite drive_O
  | rewrite Nat.eqb_refl | rewrite mem_head | rewrite ltb_succ
  | progress unfold tick
  | progress cbn [ticks run lookup_task set_task awaiting next_label step
                  tasks health startup post startupTimers nextPid
                  forceKillTimers intervals nextTask Nat.leb]
  | progress js ].

(** Split on the tests the data leave open. *)
Ltac stuck :=
  match goal with
  | |- context [match decision ?a ?b ?c with _ => _ end] =>
      destruct (decision a b c) eqn:?
  | |- context [if mem ?a ?b then _ else _] => destruct (mem a b) eqn:?
  | |- context [if Nat.leb ?a ?b then _ else _] => destruct (Nat.leb a b) eqn:?
  end.

Ltac crunch := sx; repeat (stuck; sx).

(** Split on what an arbitrary world leaves open as well. *)
Ltac stuck_any :=
  match goal with
  | |- context [match lookup_task ?t ?ts with _ => _ end] =>
      destruct (lookup_task t ts) as [[]|] eqn:?
  | |- context [match awaiting ?p ?ts with _ => _ end] =>
      destruct (awaiting p ts) eqn:?
  | |- context [if Nat.ltb ?a ?b then _ else _] => destruct (Nat.ltb a b) eqn:?
  | _ => stuck
  end.

Ltac crunch_any := sx; repeat (stuck_any; sx).

(** ** The decision *)

Lemma decision_ScaleUp rate st :
  (rate > CONFIG.LOAD_THRESHOLD)%Z -> decision rate st false = ScaleUp.
Proof.
  intros H. unfold decision.
  destruct (Z.gtb_spec rate CONFIG.LOAD_THRESHOLD); [reflexivity | lia].
Qed.

Lemma decision_ScaleDown rate st :
  (rate <= CONFIG.LOAD_THRESHOLD)%Z -> decision rate st true = ScaleDown.
Proof.
  intros H. unfold decision. rewrite andb_false_r.
  destruct (Z.leb_spec rate CONFIG.LOAD_THRESHOLD); [reflexivity | lia].
Qed.

Lemma decision_high_running rate st :
  (rate > CONFIG.LOAD_THRESHOLD)%Z -> decision rate st true = NoAction.
Proof.
  intros H. unfold decision. rewrite andb_false_r.
  destruct (Z.leb_spec rate CONFIG.LOAD_THRESHOLD); [lia | reflexivity].
Qed.

Lemma decision_low_idle rate st :
  (rate <= CONFIG.LOAD_THRESHOLD)%Z -> decision rate st false = NoAction.
Proof.
  intros H. unfold decision. rewrite andb_false_r.
  destruct (Z.gtb_spec rate CONFIG.LOAD_THRESHOLD); [lia | reflexivity].
Qed.

(** C1. For every load sample (rate, authority state, worker-alive flag): a
    rate above [LOAD_THRESHOLD] with no worker running decides [ScaleUp]; a
    rate at or below it with a worker running decides [ScaleDown]; every other
    combination decides [NoAction]; in particular the boundary rate
    [LOAD_THRESHOLD] with no worker decides [NoAction]. *)
Theorem decision_table (rate : Z) (st : ReportedState) (alive : bool) :
  ((rate > CONFIG.LOAD_THRESHOLD)%Z /\ alive = false ->
     decision rate st alive = ScaleUp) /\
  ((rate <= CONFIG.LOAD_THRESHOLD)%Z /\ alive = true ->
     decision rate st alive = ScaleDown) /\
  (~ ((rate > CONFIG.LOAD_THRESHOLD)%Z /\ alive = false) ->
   ~ ((rate <= CONFIG.LOAD_THRESHOLD)%Z /\ alive = true) ->
     decision rate st alive = NoAction) /\
  decision CONFIG.LOAD_THRESHOLD st false = NoAction.
Proof.
  repeat split.
  - intros [H ->]. now apply decision_ScaleUp.
  - intros [H ->]. now apply decision_ScaleDown.
  - intros Hup Hdown. destruct alive.
    + apply decision_high_running.
      destruct (Z_le_gt_dec rate CONFIG.LOAD_THRESHOLD) as [Hle | Hgt];
        [exfalso; apply Hdown; now split | exact Hgt].
    + apply decision_low_idle.
      destruct (Z_le_gt_dec rate CONFIG.LOAD_THRESHOLD) as [Hle | Hgt];
        [exact Hle | exfalso; apply Hup; now split].
Qed.

(** ** [start] and [stopMicroservice] *)

(** C8. Calling [start()] while the supervisor is already monitoring only
    logs the warning of line 47 and returns normally: the poll timer, the
    worker handle and [consecutiveErrors] are unchanged, no timer is created
    and no load query is issued. *)
Theorem start_while_monitoring (w : World) :
  isMonitoring (autopilot w) = true ->
  exists w',
    start w = (Ret tt, w') /\
    trace w' = Out L_alreadyRunning :: trace w /\
    autopilot w' = autopilot w /\
    intervals w' = intervals w /\
    tasks w' = tasks w /\
    w' = with_trace (trace w') w.
Proof.
  intros H. destruct w as [[h m pi ce mx] rs rn fl np iv nt st fk ts ntk tr].
  cbn in H. subst m. eexists. split; [reflexivity |].
  repeat split.
Qed.

Lemma start_while_monitoring_witness :
  isMonitoring (autopilot monitoring) = true /\
  exists w',
    start monitoring = (Ret tt, w') /\
    trace w' = Out L_alreadyRunning :: trace monitoring /\
    autopilot w' = autopilot monitoring /\
    intervals w' = intervals monitoring /\
    tasks w' = tasks monitoring /\
    w' = with_trace (trace w') monitoring.
Proof.
  split; [reflexivity | apply (start_while_monitoring monitoring); reflexivity].
Defined.

(** [stopMicroservice] on a null handle, lines 211-214. *)
Lemma stopMicroservice_null (w : World) :
  microserviceProcess (autopilot w) = None ->
  stopMicroservice w
  = (Ret tt, with_trace (Out L_noProcessToStop :: trace w) w).
Proof.
  intros H. destruct w as [[h m pi ce mx] rs rn fl np iv nt st fk ts ntk tr].
  cbn in H. subst h. reflexivity.
Qed.

(** C9. [stopMicroservice] with no worker handle is a safe no-op: it returns
    normally, prints the line of 212 and changes nothing else, neither the
    supervisor's fields nor the processes, timers or the monolith's flag. *)
Theorem stopMicroservice_without_handle (w : World) :
  microserviceProcess (autopilot w) = None ->
  stopMicroservice w
  = (Ret tt, with_trace (Out L_noProcessToStop :: trace w) w) /\
  autopilot (exec stopMicroservice w) = autopilot w.
Proof.
  intros H. unfold exec. rewrite (stopMicroservice_null w H).
  split; reflexivity.
Qed.

Lemma stopMicroservice_without_handle_witness :
  microserviceProcess (autopilot monitoring) = None /\
  (stopMicroservice monitoring
   = (Ret tt, with_trace (Out L_noProcessToStop :: trace monitoring) monitoring) /\
   autopilot (exec stopMicroservice monitoring) = autopilot monitoring).
Proof.
  split; [reflexivity |
          apply (stopMicroservice_without_handle monitoring); reflexivity].
Defined.



(** The same at a child the OS refuses to signal: the handle is cleared
    although no signal was sent and the child is still there. *)
Example stopMicroservice_on_faulty_child :
  match step (LFault 0) scaled_up with
  | Some w =>
      exists w', stopMicroservice w = (Ret tt, w') /\
                 microserviceProcess (autopilot w') = None /\
                 In 0 (running w') /\
                 ~ In (Kill 0 SIGTERM) (trace w')
  | None => False
  end.
Proof.
  cbn. eexists. split; [reflexivity |]. split; [reflexivity |].
  split; [now left |]. cbn. intros H.
  repeat (destruct H as [H | H]; [discriminate |]). exact H.
Qed.

(** ** The scenarios of the test plan *)

(** Threshold 20, no worker, samples 18, 25, 30: no action, one scale-up, no
    action; exactly one spawn. *)
Example samples_18_25_30 :
  decision 18 integrated false = NoAction /\
  decision 25 integrated false = ScaleUp /\
  decision 30 separated true = NoAction /\
  exists w,
    ticks [mkOutcomes (HealthOk 18) true true;
           mkOutcomes (HealthOk 25) true true;
           mkOutcomes (HealthOk 30) true true] monitoring = Some w /\
    length (filter is_spawn (since (trace monitoring) (trace w))) = 1 /\
    microserviceProcess (autopilot w) = Some 0 /\
    redirectorStatus w = inactive.
Proof.
  repeat (split; [reflexivity |]).
  eexists. split; [vm_compute; reflexivity |]. repeat split.
Qed.

(** Worker running, samples 15, 5: one scale-down, then no action; exactly
    one call of [stopMicroservice], which leaves two traces (its console line
    and its signal). *)
Example samples_15_5 :
  decision 15 separated true = ScaleDown /\
  decision 5 integrated false = NoAction /\
  exists w,
    ticks [mkOutcomes (HealthOk 15) true true;
           mkOutcomes (HealthOk 5) true true] scaled_up = Some w /\
    length (filter is_stop_event (since (trace scaled_up) (trace w))) = 2 /\
    In (Out L_terminating) (trace w) /\
    In (Kill 0 SIGTERM) (trace w) /\
    microserviceProcess (autopilot w) = None /\
    redirectorStatus w = active.
Proof.
  repeat (split; [reflexivity |]).
  eexists. split; [vm_compute; reflexivity |].
  split; [reflexivity |]. split; [cbn; tauto |]. split; [cbn; tauto |].
  repeat split.
Qed.

(** ** The error counter *)

(** Only a failed load query makes [consecutiveErrors] grow. *)
Lemma only_failed_query_increments (l : Label) (w w' : World) :
  step l w = Some w' ->
  consecutiveErrors (autopilot w) < consecutiveErrors (autopilot w') ->
  exists tid, l = LGetReply tid HealthFail.
Proof.
  destruct w as [[h m pi ce mx] rs rn fl np iv nt st fk ts ntk tr].
  destruct l as [ | | t | tid [load|] | p | tid | tid [|] | | p | p | p];
    try destruct h; try destruct m; try destruct fk; try destruct pi;
    crunch_any.
  all: try discriminate.
  all: try (intros E; injection E as <-; cbn; intros; lia).
  all: intros; eexists; reflexivity.
Qed.

(** A successful load query resets the counter in the step that handles it. *)
Lemma successful_query_step (tid : nat) (load : Z) (w w' : World) :
  step (LGetReply tid (HealthOk load)) w = Some w' ->
  consecutiveErrors (autopilot w') = 0.
Proof.
  destruct w as [[h m pi ce mx] rs rn fl np iv nt st fk ts ntk tr].
  destruct h; crunch_any.
  all: try discriminate.
  all: intros E; injection E as <-; reflexivity.
Qed.

(** A counter that is 0 stays 0 as long as no load query fails. *)
Lemma no_failed_query_keeps_zero (ls : list Label) (w w' : World) :
  (forall tid, ~ In (LGetReply tid HealthFail) ls) ->
  run ls w = Some w' ->
  consecutiveErrors (autopilot w) = 0 ->
  consecutiveErrors (autopilot w') = 0.
Proof.
  revert w. induction ls as [| l ls IH]; intros w Hn Hr Hz.
  - cbn in Hr. now injection Hr as <-.
  - cbn in Hr. destruct (step l w) as [w1 |] eqn:Hs; [| discriminate].
    apply (IH w1).
    + intros tid Hin. apply (Hn tid). now right.
    + exact Hr.
    + destruct (Nat.eq_dec (consecutiveErrors (autopilot w1)) 0) as [E | E];
        [exact E |].
      destruct (only_failed_query_increments l w w1 Hs) as [tid ->]; [lia |].
      exfalso. apply (Hn tid). now left.
Qed.

(** C7, as amended.  A tick whose load query succeeds and that runs on its
    own ends with [consecutiveErrors] at 0, whatever the handoff inside it
    does (the spawn or the status command may fail).  In any interleaving,
    the step that handles a successful load query sets the counter to 0 and
    it is still 0 at every later point up to which no load query has failed:
    no handoff step, timer or child event increases it.  Only a failed load
    query does, also the failed query of an overlapping tick. *)
Theorem successful_query_resets_errors (o : Outcomes) (w : World) (load : Z) :
  tasks w = [] ->
  health o = HealthOk load ->
  (exists w', tick o w = Some w' /\ consecutiveErrors (autopilot w') = 0) /\
  (forall tid load' ls w1 w2,
      run (LGetReply tid (HealthOk load') :: ls) w1 = Some w2 ->
      (forall tid', ~ In (LGetReply tid' HealthFail) ls) ->
      consecutiveErrors (autopilot w2) = 0) /\
  (forall l w1 w2,
      step l w1 = Some w2 ->
      consecutiveErrors (autopilot w1) < consecutiveErrors (autopilot w2) ->
      exists tid, l = LGetReply tid HealthFail).
Proof.
  intros Ht Hh. split; [| split; [| apply only_failed_query_increments]].
  - destruct w as [[h m pi ce mx] rs rn fl np iv nt st fk ts ntk tr].
    destruct o as [hr su po]. cbn in Ht, Hh. subst ts hr.
    destruct h as [p |], su, po; crunch.
    all: eexists; split; reflexivity.
  - intros tid load' ls w1 w2 Hr Hn. cbn [run] in Hr.
    destruct (step (LGetReply tid (HealthOk load')) w1) as [w1' |] eqn:Hs;
      [| discriminate].
    apply (no_failed_query_keeps_zero ls w1' w2 Hn Hr).
    exact (successful_query_step tid load' w1 w1' Hs).
Qed.

Lemma successful_query_resets_errors_witness :
  tasks monitoring = [] /\
  health (mkOutcomes (HealthOk 25) true false) = HealthOk 25 /\
  ((exists w', tick (mkOutcomes (HealthOk 25) true false) monitoring = Some w'
               /\ consecutiveErrors (autopilot w') = 0) /\
   (forall tid load' ls w1 w2,
       run (LGetReply tid (HealthOk load') :: ls) w1 = Some w2 ->
       (forall tid', ~ In (LGetReply tid' HealthFail) ls) ->
       consecutiveErrors (autopilot w2) = 0) /\
   (forall l w1 w2,
       step l w1 = Some w2 ->
       consecutiveErrors (autopilot w1) < consecutiveErrors (autopilot w2) ->
       exists tid, l = LGetReply tid HealthFail)).
Proof.
  split; [reflexivity |]. split; [reflexivity |].
  apply (successful_query_resets_errors
           (mkOutcomes (HealthOk 25) true false) monitoring 25); reflexivity.
Defined.

(** C7, as stated, fails when ticks overlap: the load query of invocation 0
    succeeds and its scale-up is under way when the poll timer fires again;
    the query of invocation 1 fails before the status command of invocation
    0 is answered, so invocation 0 ends with [consecutiveErrors] at 1. *)
Lemma failed_query_of_overlapping_tick_is_counted :
  exists w,
    run [LStart; LGetReply 0 (HealthOk 25); LStartupTimer 0; LSleepDone 0;
         LInterval 0; LGetReply 1 HealthFail; LPostReply 0 false] init
    = Some w /\
    tasks w = [] /\
    consecutiveErrors (autopilot w) = 1.
Proof. eexists. split; [vm_compute; reflexivity |]. split; reflexivity. Qed.

(** ** Scale-up whose status command fails *)




(** ** Scale-down *)



(** ** The error budget *)











(** ** The authority flag and the worker *)

(** Split on task identifiers as well. *)
Ltac stuck_eq :=
  match goal with
  | |- context [if Nat.eqb ?a ?b then _ else _] =>
      destruct (Nat.eqb_spec a b); [subst |]
  | _ => stuck_any
  end.

(** Bring the invariant of the world before into plain facts. *)
Ltac u_hyps :=
  repeat match goal with
  | H : ?x = ?x -> _ |- _ => specialize (H eq_refl)
  | H : active = inactive -> _ |- _ => clear H
  | H : inactive = active |- _ => discriminate H
  | H : None = Some _ |- _ => discriminate H
  | H : Some _ = Some _ |- _ => injection H as <-
  | H : exists _, _ |- _ => destruct H as [? H]
  | H : _ /\ _ |- _ => let H' := fresh H in destruct H as [H H']
  | H : forall p0, Some ?p = Some p0 -> _ |- _ => specialize (H p eq_refl)
  | H : forall p0, None = Some p0 -> _ |- _ => clear H
  end.

(** No signal to [q] in a trace that extends one without. *)
Ltac sig_goal U3 :=
  cbn [signalled];
  repeat match goal with
  | |- (_ || _)%bool = false => apply orb_false_intro
  | |- Nat.eqb _ _ = false => apply Nat.eqb_neq; lia
  | |- signalled _ _ = false => first [assumption | apply U3; lia]
  end.

Ltac in_goal := first [assumption | now left | right; assumption].

(** The four fields of [undisturbed] at an explicit world. *)
Ltac u_done U3 :=
  constructor; unfold flag_safe, worker_exists;
  cbn [autopilot redirectorStatus running tasks nextPid trace
       microserviceProcess];
  [ intros E; first [ discriminate E
                    | eexists; split; [reflexivity |];
                      split; [in_goal | sig_goal U3] ]
  | intros ? E; first [ discriminate E
                      | injection E as <-; split; [in_goal | lia] ]
  | intros ? ?; sig_goal U3
  | first [ left; reflexivity
          | right; eexists _, _; split; [reflexivity |];
            cbn [cont_ok autopilot redirectorStatus trace microserviceProcess];
            first [ exact I
                  | reflexivity
                  | intros ? E;
                    first [discriminate E | injection E as <-; sig_goal U3]
                  | eexists; split; [reflexivity | sig_goal U3] ] ] ].

(** After a step: the step was refused, or it was not quiet, or the world it
    leads to is explicit and the invariant is checked field by field. *)
Ltac u_step U3 :=
  first
    [ discriminate
    | match goal with
      | Hle : (?mx <=? S ?ce) = true
        |- _ -> (S ?ce <? ?mx) || false = true -> _ =>
          let Hq := fresh "Hq" in
          intros _ Hq; rewrite orb_false_r in Hq;
          apply Nat.ltb_lt in Hq; apply Nat.leb_le in Hle; lia
      end
    | let E := fresh "E" in
      let Hq := fresh "Hq" in
      intros E; injection E as <-; intros Hq;
      first [ discriminate Hq | u_done U3 ] ].

Lemma undisturbed_init : undisturbed init.
Proof.
  constructor; cbn.
  - intros H; discriminate.
  - intros p H; discriminate.
  - intros q _. reflexivity.
  - now left.
Qed.

(** The invariant is kept by every quiet step.  The cases are: no
    invocation is pending, or one is, suspended at [k]. *)
Lemma undisturbed_step (l : Label) (w w' : World) :
  undisturbed w -> quiet l w = true -> step l w = Some w' -> undisturbed w'.
Proof.
  destruct w as [[h m pi ce mx] rs rn fl np iv nt st fk ts ntk tr].
  intros [U1 U2 U3 U4]. unfold flag_safe, worker_exists in U1.
  cbn in U1, U2, U3, U4.
  intros Hq Hs. revert Hs Hq.
  destruct U4 as [-> | (tid0 & k & -> & Hk)].
  - destruct l as [ | | t | tid [load|] | p | tid | tid [|] | | p | p | p];
      try destruct h; try destruct fk; try destruct rs; try destruct m;
      try destruct pi; u_hyps;
      cbn [quiet relied_on exposed no_task flag_inactive existsb
           autopilot microserviceProcess isMonitoring redirectorStatus tasks
           consecutiveErrors maxConsecutiveErrors is_some andb orb negb];
      sx; repeat (stuck_eq; sx).
    all: u_step U3.
  - destruct k; cbn in Hk; destruct h, rs; u_hyps;
      destruct l as [ | | t | tid [load|] | p' | tid | tid [|] | | p' | p' | p'];
      try destruct fk; try destruct m; try destruct pi;
      cbn [quiet relied_on exposed no_task flag_inactive existsb
           past_startup scaling_up snd
           autopilot microserviceProcess isMonitoring redirectorStatus tasks
           consecutiveErrors maxConsecutiveErrors is_some andb orb negb];
      sx; repeat (stuck_eq; sx).
    all: u_step U3.
Qed.

Lemma undisturbed_run (ls : list Label) (w w' : World) :
  undisturbed w -> quiet_run ls w = Some w' -> undisturbed w'.
Proof.
  revert w. induction ls as [| l ls IH]; intros w U Hr; cbn in Hr.
  - now injection Hr as <-.
  - destruct (quiet l w) eqn:Hq; [| discriminate].
    destruct (step l w) as [w1 |] eqn:Hs; [| discriminate].
    exact (IH w1 (undisturbed_step l w w1 U Hq Hs) Hr).
Qed.

(** C3, as amended.  In every state reached from the initial one by an
    undisturbed run the authority flag is never Separated while no worker
    exists, a worker being a child that the supervisor holds a handle to,
    that has not exited and that has been sent no signal.  An undisturbed
    run may hold calls of [start()] and [stop()], poll ticks with their
    handoff steps and timers, failed load queries up to and beyond the error
    budget, child ['exit'] and ['error'] events (among them every spawn
    failure) and force-kill timers, as long as polls do not overlap, the
    handle is not cleared (by [stop()], by the error budget or by a child
    event) while the flag is inactive or a scale-up is past its start-up
    wait, and no force-kill timer fires on a held worker while the flag is
    inactive or a scale-up is under way. *)
Theorem undisturbed_flag_safe (ls : list Label) (w : World) :
  quiet_run ls init = Some w -> flag_safe w.
Proof.
  intros Hr. exact (u_flag w (undisturbed_run ls init w undisturbed_init Hr)).
Qed.

Lemma undisturbed_flag_safe_witness :
  quiet_run [LStart; LGetReply 0 (HealthOk 25); LChildExit 0; LStartupTimer 0;
             LStop; LStart; LGetReply 1 (HealthOk 25); LStartupTimer 1;
             LSleepDone 1; LPostReply 1 true] init = Some rescaled_up /\
  flag_safe rescaled_up.
Proof.
  split; [vm_compute; reflexivity |].
  apply (undisturbed_flag_safe
           [LStart; LGetReply 0 (HealthOk 25); LChildExit 0; LStartupTimer 0;
            LStop; LStart; LGetReply 1 (HealthOk 25); LStartupTimer 1;
            LSleepDone 1; LPostReply 1 true] rescaled_up).
  vm_compute. reflexivity.
Defined.

(** C3, as stated, fails: after a completed scale-up an unexpected exit of
    the worker clears the handle and nothing resets the monolith's flag. *)
Lemma flag_separated_without_worker :
  exists w,
    run [LStart; LGetReply 0 (HealthOk 25); LStartupTimer 0; LSleepDone 0;
         LPostReply 0 true; LChildExit 0] init = Some w /\
    redirectorStatus w = inactive /\
    microserviceProcess (autopilot w) = None /\
    running w = [] /\
    ~ flag_safe w.
Proof.
  eexists. split; [vm_compute; reflexivity |].
  repeat split. intros H. destruct (H eq_refl) as (p & Hp & _). discriminate.
Qed.

(** [stop()] breaks it as well: it stops the worker and leaves the flag. *)
Example flag_separated_after_stop :
  exists w,
    run [LStop; LChildExit 0] scaled_up = Some w /\
    redirectorStatus w = inactive /\
    microserviceProcess (autopilot w) = None /\
    running w = [].
Proof. eexists. split; [vm_compute; reflexivity |]. repeat split. Qed.

(** And so does the error budget, which calls [stop()]. *)
Example flag_separated_after_failed_queries :
  exists w,
    ticks [mkOutcomes HealthFail true true; mkOutcomes HealthFail true true;
           mkOutcomes HealthFail true true] scaled_up = Some w /\
    redirectorStatus w = inactive /\
    microserviceProcess (autopilot w) = None.
Proof. eexists. split; [vm_compute; reflexivity |]. repeat split. Qed.

(** Overlapping ticks break it without any child event: the status command
    of a scale-up is answered late, and meanwhile the next poll tick sees a
    low load and scales down. *)
Example flag_separated_by_overlapping_ticks :
  exists w,
    run [LStart; LGetReply 0 (HealthOk 25); LStartupTimer 0; LSleepDone 0;
         LInterval 0; LGetReply 1 (HealthOk 5); LPostReply 1 true;
         LSleepDone 1; LPostReply 0 true] init = Some w /\
    redirectorStatus w = inactive /\
    microserviceProcess (autopilot w) = None.
Proof. eexists. split; [vm_compute; reflexivity |]. repeat split. Qed.

(** A worker that exits after its start-up wait, during the 2000ms pause of
    the scale-up, breaks it too: the flag is still active when the child
    exits, and the scale-up goes on to switch it. *)
Example flag_separated_by_exit_during_pause :
  exists w,
    run [LStart; LGetReply 0 (HealthOk 25); LStartupTimer 0; LChildExit 0;
         LSleepDone 0; LPostReply 0 true] init = Some w /\
    redirectorStatus w = inactive /\
    microserviceProcess (autopilot w) = None /\
    running w = [].
Proof. eexists. split; [vm_compute; reflexivity |]. repeat split. Qed.

(** A spawn failure does not: the child exits within its start-up wait, the
    scale-up is given up and the flag stays active. *)
Example spawn_failure_keeps_flag :
  exists w,
    quiet_run [LStart; LGetReply 0 (HealthOk 25); LChildExit 0;
               LStartupTimer 0] init = Some w /\
    redirectorStatus w = active /\
    microserviceProcess (autopilot w) = None /\
    tasks w = [].
Proof. eexists. split; [vm_compute; reflexivity |]. repeat split. Qed.

(** The supervisor's own force-kill timer breaks it: the timer set when
    worker 0 was stopped fires after worker 1 has taken over, and the
    SIGKILL goes to worker 1 while the flag is inactive.  Every step before
    the timer is undisturbed. *)
Example flag_separated_by_stale_force_kill :
  exists w0 w,
    quiet_run [LInterval 0; LGetReply 1 (HealthOk 5); LPostReply 1 true;
               LSleepDone 1; LChildExit 0; LInterval 0;
               LGetReply 2 (HealthOk 25); LStartupTimer 1; LSleepDone 2;
               LPostReply 2 true] scaled_up = Some w0 /\
    step LForceKill w0 = Some w /\
    redirectorStatus w = inactive /\
    microserviceProcess (autopilot w) = Some 1 /\
    In (Kill 1 SIGKILL) (trace w) /\
    ~ flag_safe w.
Proof.
  eexists. eexists. split; [vm_compute; reflexivity |].
  split; [vm_compute; reflexivity |].
  split; [reflexivity |]. split; [reflexivity |]. split; [now left |].
  intros H. destruct (H eq_refl) as (p & Hp & _ & Hs).
  injection Hp as <-. discriminate Hs.
Qed.

(** So does the timer when it fires within the start-up wait of the next
    worker: the callback of the 1000ms timer still finds the handle, the
    scale-up goes on and switches the flag to a worker that was killed. *)
Example flag_separated_by_force_kill_during_startup :
  exists w,
    run [LInterval 0; LGetReply 1 (HealthOk 5); LPostReply 1 true;
         LSleepDone 1; LChildExit 0; LInterval 0; LGetReply 2 (HealthOk 25);
         LForceKill; LStartupTimer 1; LSleepDone 2; LPostReply 2 true]
        scaled_up = Some w /\
    redirectorStatus w = inactive /\
    microserviceProcess (autopilot w) = Some 1 /\
    In (Kill 1 SIGKILL) (trace w) /\
    ~ flag_safe w.
Proof.
  eexists. split; [vm_compute; reflexivity |].
  split; [reflexivity |]. split; [reflexivity |]. split; [cbn; tauto |].
  intros H. destruct (H eq_refl) as (p & Hp & _ & Hs).
  injection Hp as <-. discriminate Hs.
Qed.

(** And a [start()] that overlaps a pending invocation, like a poll tick
    that does: after [stop()] and [start()] two invocations are pending,
    the first scales up and the second, seeing a low load, scales down and
    stops the worker before the first has switched the flag. *)
Example flag_separated_by_overlapping_start :
  exists w,
    run [LStart; LStop; LStart; LGetReply 0 (HealthOk 25);
         LGetReply 1 (HealthOk 5); LStartupTimer 0; LPostReply 1 true;
         LSleepDone 1; LSleepDone 0; LPostReply 0 true] init = Some w /\
    redirectorStatus w = inactive /\
    microserviceProcess (autopilot w) = None /\
    ~ flag_safe w.
Proof.
  eexists. split; [vm_compute; reflexivity |].
  split; [reflexivity |]. split; [reflexivity |].
  intros H. destruct (H eq_refl) as (p & Hp & _). discriminate Hp.
Qed.

(** ** The force-kill timer *)

(** The timer set by [stopMicroservice] fires on a null handle: the handle is
    cleared in the same synchronous run that sets the timer, so when nothing
    was spawned in between the callback does nothing. *)
Lemma force_kill_timer_finds_no_handle (w : World) (p : pid) :
  microserviceProcess (autopilot w) = Some p ->
  mem p (faulty w) = false ->
  exists w1,
    top stopMicroservice w = Some w1 /\
    trace w1 = Out L_stopped :: SetTimeout 5000 :: Kill p SIGTERM
               :: Out L_terminating :: trace w /\
    forceKillTimers w1 = S (forceKillTimers w) /\
    step LForceKill w1 = Some (with_forceKillTimers (forceKillTimers w) w1).
Proof.
  intros H Hf. destruct w as [[h m pi ce mx] rs rn fl np iv nt st fk ts ntk tr].
  cbn [autopilot microserviceProcess faulty] in H, Hf. subst h.
  js. rewrite Hf. sx.
  eexists. repeat split.
Qed.

(** C4 on the code: worker 0 is running and ignores SIGTERM; a scale-down
    tick stops it, the 5000ms timer fires while the child is still running,
    and no SIGKILL is sent to it; no timer is left that could send one. *)
Theorem force_kill_is_never_sent :
  exists w,
    run [LInterval 0; LGetReply 1 (HealthOk 5); LPostReply 1 true;
         LSleepDone 1; LForceKill] scaled_up = Some w /\
    In (Kill 0 SIGTERM) (trace w) /\
    In 0 (running w) /\
    ~ In (Kill 0 SIGKILL) (trace w) /\
    forceKillTimers w = 0.
Proof.
  eexists. split; [vm_compute; reflexivity |].
  split; [cbn; tauto |]. split; [now left |]. split; [| reflexivity].
  cbn. intros H. repeat (destruct H as [H | H]; [discriminate |]). exact H.
Qed.

(** When a new worker is spawned before the timer fires, the SIGKILL goes to
    the new worker instead: [stop()], then [start()] under high load. *)
Example force_kill_hits_the_next_worker :
  exists w,
    run [LStop; LStart; LGetReply 1 (HealthOk 25); LForceKill] scaled_up
    = Some w /\
    microserviceProcess (autopilot w) = Some 1 /\
    In (Kill 1 SIGKILL) (trace w) /\
    ~ In (Kill 0 SIGKILL) (trace w).
Proof.
  eexists. split; [vm_compute; reflexivity |].
  split; [reflexivity |]. split; [cbn; tauto |].
  cbn. intros H. repeat (destruct H as [H | H]; [discriminate |]). exact H.
Qed.

(** ** Further properties of the supervisor *)

Lemma remove_nat_single t : remove_nat t [t] = [].
Proof. unfold remove_nat. cbn. now rewrite Nat.eqb_refl. Qed.

Lemma timer_consistent_step (l : Label) (w w' : World) :
  timer_consistent w -> step l w = Some w' -> timer_consistent w'.
Proof.
  destruct w as [[h m pi ce mx] rs rn fl np iv nt st fk ts ntk tr].
  unfold timer_consistent. cbn [autopilot isMonitoring pollInterval intervals].
  intros [(-> & t & -> & ->) | (-> & -> & ->)] Hs; revert Hs.
  - destruct l as [ | | t' | tid [load|] | p | tid | tid [|] | | p | p | p];
      try destruct h; try destruct fk; crunch_any;
      try discriminate;
      intros E; injection E as <-;
      cbn [autopilot isMonitoring pollInterval intervals];
      rewrite ?remove_nat_single;
      first [ left; split; [reflexivity | eexists; split; reflexivity]
            | right; split; [reflexivity | split; [reflexivity |]];
              first [ reflexivity | rewrite Nat.eqb_refl; reflexivity ] ].
  - destruct l as [ | | t' | tid [load|] | p | tid | tid [|] | | p | p | p];
      try destruct h; try destruct fk; crunch_any;
      try discriminate;
      intros E; injection E as <-;
      cbn [autopilot isMonitoring pollInterval intervals];
      first [ left; split; [reflexivity | eexists; split; reflexivity]
            | right; split; [reflexivity | split; reflexivity] ].
Qed.

(** X1. In every state the supervisor can reach, whatever the interleaving
    of calls, timers, replies and child events: it monitors exactly when one
    poll timer is active, and that timer is the one stored in
    [pollInterval]; when it does not monitor no poll timer is active.  No
    sequence of [start()] and [stop()] calls leaks a timer. *)
Theorem poll_timer_consistent (ls : list Label) (w : World) :
  run ls init = Some w -> timer_consistent w.
Proof.
  assert (G : forall ls w0 w1, timer_consistent w0 -> run ls w0 = Some w1 ->
                               timer_consistent w1).
  { clear. induction ls as [| l ls IH]; intros w0 w1 H0 Hr; cbn in Hr.
    - now injection Hr as <-.
    - destruct (step l w0) as [w2 |] eqn:Hs; [| discriminate].
      exact (IH w2 w1 (timer_consistent_step l w0 w2 H0 Hs) Hr). }
  intros Hr. apply (G ls init w); [| exact Hr].
  right. repeat split.
Qed.

Lemma poll_timer_consistent_witness :
  run [LStart; LStart; LStop; LStop; LStart] init = Some restarted /\
  timer_consistent restarted.
Proof.
  split; [vm_compute; reflexivity |].
  apply (poll_timer_consistent [LStart; LStart; LStop; LStop; LStart]).
  vm_compute; reflexivity.
Defined.

Lemma decision_ScaleUp_inv load st running_ :
  decision load st running_ = ScaleUp ->
  (load > CONFIG.LOAD_THRESHOLD)%Z /\ running_ = false.
Proof.
  unfold decision. destruct running_; cbn [negb];
    rewrite ?andb_true_r, ?andb_false_r.
  - destruct (load <=? CONFIG.LOAD_THRESHOLD)%Z; discriminate.
  - destruct (Z.gtb_spec load CONFIG.LOAD_THRESHOLD); [| discriminate].
    intros _. split; [lia | reflexivity].
Qed.

Lemma decision_ScaleDown_inv load st running_ :
  decision load st running_ = ScaleDown ->
  (load <= CONFIG.LOAD_THRESHOLD)%Z /\ running_ = true.
Proof.
  unfold decision. destruct running_; cbn [negb];
    rewrite ?andb_true_r, ?andb_false_r.
  - destruct (Z.leb_spec load CONFIG.LOAD_THRESHOLD); [| discriminate].
    intros _. split; [assumption | reflexivity].
  - destruct (load >? CONFIG.LOAD_THRESHOLD)%Z; discriminate.
Qed.

(** X2. The monolith's flag changes only when a status command of the
    supervisor is answered: in a scale-up (then it becomes inactive) or in a
    scale-down (then it becomes active).  No other step touches it: not
    [stop()], not the error budget, not a child's ['exit'] or ['error']
    event, not a failed command. *)
Theorem flag_changes_only_by_answered_command (l : Label) (w w' : World) :
  step l w = Some w' ->
  redirectorStatus w' <> redirectorStatus w ->
  exists tid,
    l = LPostReply tid true /\
    ((lookup_task tid (tasks w) = Some AwaitPostInactive /\
      redirectorStatus w' = inactive) \/
     (lookup_task tid (tasks w) = Some AwaitPostActive /\
      redirectorStatus w' = active)).
Proof.
  destruct w as [[h m pi ce mx] rs rn fl np iv nt st fk ts ntk tr].
  destruct l as [ | | t | tid [load|] | p | tid | tid [|] | | p | p | p];
    try destruct h; try destruct m; try destruct fk; try destruct pi;
    crunch_any;
    try discriminate;
    intros E; injection E as <-;
    cbn [redirectorStatus tasks]; intros Hn;
    try congruence.
  all: exists tid; split; [reflexivity |].
  all: first [ left; split; [assumption | reflexivity]
             | right; split; [assumption | reflexivity] ].
Qed.

Lemma flag_changes_only_by_answered_command_witness :
  step (LPostReply 1 true) scaling_down = Some scaled_down /\
  redirectorStatus scaled_down <> redirectorStatus scaling_down /\
  exists tid,
    LPostReply 1 true = LPostReply tid true /\
    ((lookup_task tid (tasks scaling_down) = Some AwaitPostInactive /\
      redirectorStatus scaled_down = inactive) \/
     (lookup_task tid (tasks scaling_down) = Some AwaitPostActive /\
      redirectorStatus scaled_down = active)).
Proof.
  assert (Hs : step (LPostReply 1 true) scaling_down = Some scaled_down)
    by (vm_compute; reflexivity).
  assert (Hn : redirectorStatus scaled_down <> redirectorStatus scaling_down)
    by (vm_compute; discriminate).
  split; [exact Hs |]. split; [exact Hn |].
  exact (flag_changes_only_by_answered_command
           (LPostReply 1 true) scaling_down scaled_down Hs Hn).
Defined.

(** X3. The supervisor spawns a child only in the step that handles a
    successful load query with a load above the threshold while it holds no
    handle; that step stores the new child as its handle.  It never spawns
    while it holds a handle, and no other step spawns. *)
Theorem spawn_only_on_high_load_without_handle (l : Label) (w w' : World) :
  step l w = Some w' ->
  nextPid w' <> nextPid w ->
  exists tid load,
    l = LGetReply tid (HealthOk load) /\
    (load > CONFIG.LOAD_THRESHOLD)%Z /\
    microserviceProcess (autopilot w) = None /\
    microserviceProcess (autopilot w') = Some (nextPid w) /\
    running w' = nextPid w :: running w /\
    nextPid w' = S (nextPid w).
Proof.
  destruct w as [[h m pi ce mx] rs rn fl np iv nt st fk ts ntk tr].
  destruct l as [ | | t | tid [load|] | p | tid | tid [|] | | p | p | p];
    try destruct h; try destruct m; try destruct fk; try destruct pi;
    crunch_any;
    try discriminate;
    intros E; injection E as <-;
    cbn [nextPid autopilot microserviceProcess running]; intros Hn;
    try congruence.
  all: exists tid, load; split; [reflexivity |].
  all: match goal with
       | H : decision _ _ _ = ScaleUp |- _ =>
           destruct (decision_ScaleUp_inv _ _ _ H) as [Hl Hr]
       end.
  all: try discriminate.
  all: repeat split; assumption.
Qed.

Lemma spawn_only_on_high_load_without_handle_witness :
  step (LGetReply 0 (HealthOk 25)) first_query = Some spawned /\
  nextPid spawned <> nextPid first_query /\
  exists tid load,
    LGetReply 0 (HealthOk 25) = LGetReply tid (HealthOk load) /\
    (load > CONFIG.LOAD_THRESHOLD)%Z /\
    microserviceProcess (autopilot first_query) = None /\
    microserviceProcess (autopilot spawned) = Some (nextPid first_query) /\
    running spawned = nextPid first_query :: running first_query /\
    nextPid spawned = S (nextPid first_query).
Proof.
  assert (Hs : step (LGetReply 0 (HealthOk 25)) first_query = Some spawned)
    by (vm_compute; reflexivity).
  assert (Hn : nextPid spawned <> nextPid first_query)
    by (vm_compute; discriminate).
  split; [exact Hs |]. split; [exact Hn |].
  exact (spawn_only_on_high_load_without_handle
           (LGetReply 0 (HealthOk 25)) first_query spawned Hs Hn).
Defined.

(** Case analysis on membership in an explicit prefix of a trace. *)
Ltac in_cases :=
  repeat match goal with
         | H : In _ (_ :: _) |- _ =>
             destruct H as [H | H]; [try discriminate |]
         | H : In _ [] |- _ => destruct H
         end.

Lemma signals_ok_init : signals_ok init.
Proof.
  constructor;
    cbn [init autopilot microserviceProcess trace nextPid term_then_kill_free].
  - exact I.
  - intros p s H. in_cases.
  - intros p H. discriminate.
Qed.

(** Split on a field of the world that a test inspects. *)
Ltac stuck_var :=
  match goal with
  | |- context [match ?x with _ => _ end] => is_var x; destruct x
  | |- context [if ?x then _ else _] => is_var x; destruct x
  end.

Ltac crunch_all := sx; repeat (first [stuck_any | stuck_var]; sx).

(** Facts about the signals of the older trace, then arithmetic or logic. *)
Ltac sig_fin S2 S3 :=
  in_cases;
  repeat match goal with
         | H : Kill _ _ = Kill _ _ |- _ => injection H as ? ?; subst
         end;
  repeat match goal with
         | H : In (Kill ?p ?s) _ |- _ => pose proof (S2 p s H); revert H
         end;
  intros;
  try (pose proof (S3 _ eq_refl) as [? ?]);
  first [ lia | tauto ].

Ltac sig_close S1 S2 S3 :=
  first
    [ exact S1 | exact S2 | exact S3
    | split; [ let H := fresh "H" in intros H; sig_fin S2 S3 | exact S1 ]
    | let q := fresh "q" in
      let E := fresh "E" in
      intros q E; destruct (S3 q E) as [? ?];
      split; [ assumption | intro; in_cases; tauto ]
    | intros;
      repeat match goal with
             | E : Some _ = Some _ |- _ => injection E as <-
             | E : None = Some _ |- _ => discriminate E
             end;
      first [ sig_fin S2 S3
            | split; [ sig_fin S2 S3
                     | let H := fresh "H" in intros H; sig_fin S2 S3 ] ] ].

Lemma signals_ok_step (l : Label) (w w' : World) :
  signals_ok w -> step l w = Some w' -> signals_ok w'.
Proof.
  destruct w as [[h m pi ce mx] rs rn fl np iv nt st fk ts ntk tr].
  intros [S1 S2 S3].
  cbn [autopilot microserviceProcess trace nextPid] in S1, S2, S3.
  intros Hs; revert Hs.
  destruct l as [ | | t | tid [load|] | p | tid | tid [|] | | p | p | p];
    crunch_all;
    try discriminate;
    intros E; injection E as <-;
    (constructor;
     cbn [autopilot microserviceProcess trace nextPid term_then_kill_free]).
  all: sig_close S1 S2 S3.
Qed.


Lemma term_then_kill_free_spec (tr : list Event) :
  term_then_kill_free tr ->
  forall newer older p,
    tr = newer ++ Kill p SIGTERM :: older -> ~ In (Kill p SIGKILL) newer.
Proof.
  induction tr as [| e tr IH]; intros H newer older p E.
  - destruct newer; discriminate.
  - destruct newer as [| e' newer]; [intros [] |].
    cbn in E. injection E as <- E.
    assert (Ht : term_then_kill_free tr).
    { destruct e as [| | | q [|] | | | | | |]; cbn in H; tauto. }
    intros [He | Hin].
    + subst e. cbn in H. destruct H as [Hn _]. apply Hn.
      rewrite E. apply in_or_app. right. now left.
    + exact (IH Ht newer older p E Hin).
Qed.

(** X4. In every run of the supervisor, once SIGTERM has been sent to a
    child no SIGKILL is ever sent to that child: the force-kill timer of
    [stopMicroservice] never reaches the child it was set for (when it sends
    a SIGKILL at all, it is to a child spawned later). *)
Theorem sigkill_never_follows_sigterm (ls : list Label) (w : World)
    (newer older : list Event) (p : pid) :
  run ls init = Some w ->
  trace w = newer ++ Kill p SIGTERM :: older ->
  ~ In (Kill p SIGKILL) newer.
Proof.
  assert (G : forall ls w0 w1, signals_ok w0 -> run ls w0 = Some w1 ->
                               signals_ok w1).
  { clear. induction ls as [| l ls IH]; intros w0 w1 H0 Hr; cbn in Hr.
    - now injection Hr as <-.
    - destruct (step l w0) as [w2 |] eqn:Hs; [| discriminate].
      exact (IH w2 w1 (signals_ok_step l w0 w2 H0 Hs) Hr). }
  intros Hr E.
  exact (term_then_kill_free_spec (trace w)
           (s_trace w (G ls init w signals_ok_init Hr)) newer older p E).
Qed.

Lemma sigkill_never_follows_sigterm_witness :
  run [LStart; LGetReply 0 (HealthOk 25); LStartupTimer 0; LSleepDone 0;
       LPostReply 0 true; LStop; LStart; LGetReply 1 (HealthOk 25);
       LForceKill] init = Some force_killed /\
  trace force_killed
  = [Kill 1 SIGKILL; Out L_forceKilling; SetTimeout 1000; Spawn 1;
     Out L_spawning; Out L_scalingUp; Out (L_highLoad 25);
     Out (L_currentLoad 25 separated); GetHealth; SetInterval 1;
     Out L_starting; Out L_stopped; SetTimeout 5000]
    ++ Kill 0 SIGTERM :: skipn 14 (trace force_killed) /\
  ~ In (Kill 0 SIGKILL)
       [Kill 1 SIGKILL; Out L_forceKilling; SetTimeout 1000; Spawn 1;
        Out L_spawning; Out L_scalingUp; Out (L_highLoad 25);
        Out (L_currentLoad 25 separated); GetHealth; SetInterval 1;
        Out L_starting; Out L_stopped; SetTimeout 5000].
Proof.
  assert (Hr : run [LStart; LGetReply 0 (HealthOk 25); LStartupTimer 0;
                    LSleepDone 0; LPostReply 0 true; LStop; LStart;
                    LGetReply 1 (HealthOk 25); LForceKill] init
               = Some force_killed) by (vm_compute; reflexivity).
  assert (Ht : trace force_killed
  = [Kill 1 SIGKILL; Out L_forceKilling; SetTimeout 1000; Spawn 1;
     Out L_spawning; Out L_scalingUp; Out (L_highLoad 25);
     Out (L_currentLoad 25 separated); GetHealth; SetInterval 1;
     Out L_starting; Out L_stopped; SetTimeout 5000]
    ++ Kill 0 SIGTERM :: skipn 14 (trace force_killed))
    by (vm_compute; reflexivity).
  split; [exact Hr |]. split; [exact Ht |].
  exact (sigkill_never_follows_sigterm _ force_killed _ _ 0 Hr Ht).
Defined.



(** X6. A worker that does not come up aborts the scale-up before the
    authority is touched.  Whether the child reports an ['error'] or exits
    within its first second, the invocation ends with the handle null and
    the flag unchanged, and it never issues the status command;
    [consecutiveErrors] stays 0. *)
Theorem failed_spawn_leaves_flag (w : World) (t : timer) (load : Z) :
  tasks w = [] ->
  mem t (intervals w) = true ->
  microserviceProcess (autopilot w) = None ->
  (load > CONFIG.LOAD_THRESHOLD)%Z ->
  (exists w',
     run [LInterval t; LGetReply (nextTask w) (HealthOk load);
          LChildError (nextPid w)] w = Some w' /\
     tasks w' = [] /\
     microserviceProcess (autopilot w') = None /\
     redirectorStatus w' = redirectorStatus w /\
     consecutiveErrors (autopilot w') = 0 /\
     trace w' =
       Err L_scaleUpFailed :: Err L_failedToStart :: SetTimeout 1000
       :: Spawn (nextPid w) :: Out L_spawning :: Out L_scalingUp
       :: Out (L_highLoad load)
       :: Out (L_currentLoad load (api_health (redirectorStatus w)))
       :: GetHealth :: trace w) /\
  (exists w',
     run [LInterval t; LGetReply (nextTask w) (HealthOk load);
          LChildExit (nextPid w); LStartupTimer (nextPid w)] w = Some w' /\
     tasks w' = [] /\
     microserviceProcess (autopilot w') = None /\
     redirectorStatus w' = redirectorStatus w /\
     consecutiveErrors (autopilot w') = 0 /\
     trace w' =
       Err L_scaleUpFailed :: Out (L_exited (nextPid w)) :: SetTimeout 1000
       :: Spawn (nextPid w) :: Out L_spawning :: Out L_scalingUp
       :: Out (L_highLoad load)
       :: Out (L_currentLoad load (api_health (redirectorStatus w)))
       :: GetHealth :: trace w).
Proof.
  intros Ht Hi Hh Hl.
  destruct w as [[h m pi ce mx] rs rn fl np iv nt st fk ts ntk tr].
  cbn [tasks intervals autopilot microserviceProcess] in Ht, Hi, Hh.
  subst ts h. split.
  - sx. rewrite Hi. sx. rewrite (decision_ScaleUp _ _ Hl). sx.
    eexists. repeat split.
  - sx. rewrite Hi. sx. rewrite (decision_ScaleUp _ _ Hl). sx.
    eexists. repeat split.
Qed.

Lemma failed_spawn_leaves_flag_witness :
  tasks monitoring = [] /\
  mem 0 (intervals monitoring) = true /\
  microserviceProcess (autopilot monitoring) = None /\
  (25 > CONFIG.LOAD_THRESHOLD)%Z /\
  (exists w',
     run [LInterval 0; LGetReply (nextTask monitoring) (HealthOk 25);
          LChildError (nextPid monitoring)] monitoring = Some w' /\
     tasks w' = [] /\
     microserviceProcess (autopilot w') = None /\
     redirectorStatus w' = redirectorStatus monitoring /\
     consecutiveErrors (autopilot w') = 0 /\
     trace w' =
       Err L_scaleUpFailed :: Err L_failedToStart :: SetTimeout 1000
       :: Spawn (nextPid monitoring) :: Out L_spawning :: Out L_scalingUp
       :: Out (L_highLoad 25)
       :: Out (L_currentLoad 25 (api_health (redirectorStatus monitoring)))
       :: GetHealth :: trace monitoring) /\
  (exists w',
     run [LInterval 0; LGetReply (nextTask monitoring) (HealthOk 25);
          LChildExit (nextPid monitoring); LStartupTimer (nextPid monitoring)]
         monitoring = Some w' /\
     tasks w' = [] /\
     microserviceProcess (autopilot w') = None /\
     redirectorStatus w' = redirectorStatus monitoring /\
     consecutiveErrors (autopilot w') = 0 /\
     trace w' =
       Err L_scaleUpFailed :: Out (L_exited (nextPid monitoring))
       :: SetTimeout 1000
       :: Spawn (nextPid monitoring) :: Out L_spawning :: Out L_scalingUp
       :: Out (L_highLoad 25)
       :: Out (L_currentLoad 25 (api_health (redirectorStatus monitoring)))
       :: GetHealth :: trace monitoring).
Proof.
  repeat (split; [reflexivity |]).
  apply (failed_spawn_leaves_flag monitoring 0 25); reflexivity.
Defined.

(** One tick that finds nothing to do. *)
Lemma tick_no_action (o : Outcomes) (w : World) (load : Z) :
  tasks w = [] ->
  health o = HealthOk load ->
  ((load > CONFIG.LOAD_THRESHOLD)%Z /\
   microserviceProcess (autopilot w) <> None \/
   (load <= CONFIG.LOAD_THRESHOLD)%Z /\
   microserviceProcess (autopilot w) = None) ->
  tick o w =
  Some (with_trace
          (Out (L_withinRange load (is_some (microserviceProcess (autopilot w))))
           :: Out (L_currentLoad load (api_health (redirectorStatus w)))
           :: GetHealth :: trace w)
          (with_nextTask (S (nextTask w))
             (with_autopilot (set_consecutiveErrors 0) w))).
Proof.
  intros Ht Ho Hd.
  destruct w as [[h m pi ce mx] rs rn fl np iv nt st fk ts ntk tr].
  destruct o as [hr su po].
  cbn [tasks health autopilot microserviceProcess] in Ht, Ho, Hd.
  subst ts hr.
  destruct Hd as [[Hl Hh] | [Hl Hh]].
  - destruct h as [p |]; [| congruence].
    sx. rewrite (decision_high_running _ _ Hl). sx. reflexivity.
  - subst h. sx. rewrite (decision_low_idle _ _ Hl). sx. reflexivity.
Qed.

(** X7. Ticks that find the load above the threshold while a worker is
    held, or at or below it while none is, do nothing, however many of them
    follow each other: handle, flag, children, timers and monitoring state
    stay as they are, nothing is spawned or signalled and no status command
    is issued; only console lines and load queries are recorded.  In
    particular a worker left running by a failed scale-up stays so, with
    the flag unswitched, as long as the load stays high. *)
Theorem idle_ticks_change_nothing (os : list Outcomes) (w : World) :
  tasks w = [] ->
  (forall o, In o os ->
     exists load,
       health o = HealthOk load /\
       ((load > CONFIG.LOAD_THRESHOLD)%Z /\
        microserviceProcess (autopilot w) <> None \/
        (load <= CONFIG.LOAD_THRESHOLD)%Z /\
        microserviceProcess (autopilot w) = None)) ->
  exists w' evs,
    ticks os w = Some w' /\
    microserviceProcess (autopilot w') = microserviceProcess (autopilot w) /\
    isMonitoring (autopilot w') = isMonitoring (autopilot w) /\
    pollInterval (autopilot w') = pollInterval (autopilot w) /\
    redirectorStatus w' = redirectorStatus w /\
    running w' = running w /\
    nextPid w' = nextPid w /\
    intervals w' = intervals w /\
    forceKillTimers w' = forceKillTimers w /\
    tasks w' = [] /\
    trace w' = evs ++ trace w /\
    forallb is_passive evs = true.
Proof.
  revert w. induction os as [| o os IH]; intros w Ht Hall.
  - exists w, []. repeat split. exact Ht.
  - destruct (Hall o (or_introl eq_refl)) as (load & Ho & Hd).
    cbn [ticks]. rewrite (tick_no_action o w load Ht Ho Hd).
    match goal with
    | |- context [ticks os ?w1] =>
        destruct (IH w1) as (w' & evs & Hr & H1 & H2 & H3 & H4 & H5 & H6
                               & H7 & H8 & H9 & H10 & H11)
    end.
    + destruct w as [[h m pi ce mx] rs rn fl np iv nt st fk ts ntk tr].
      exact Ht.
    + intros o' Hin. destruct (Hall o' (or_intror Hin)) as (l' & Ho' & Hd').
      exists l'. split; [exact Ho' |].
      destruct w as [[h m pi ce mx] rs rn fl np iv nt st fk ts ntk tr].
      exact Hd'.
    + exists w',
        (evs ++ [Out (L_withinRange load
                        (is_some (microserviceProcess (autopilot w))));
                 Out (L_currentLoad load (api_health (redirectorStatus w)));
                 GetHealth]).
      destruct w as [[h m pi ce mx] rs rn fl np iv nt st fk ts ntk tr].
      cbn in H1, H2, H3, H4, H5, H6, H7, H8, H10.
      split; [exact Hr |].
      repeat (split; [assumption |]).
      split.
      * rewrite H10. now rewrite <- app_assoc.
      * rewrite forallb_app, H11. reflexivity.
Qed.

Lemma idle_ticks_change_nothing_witness :
  tasks scaled_up = [] /\
  (forall o, In o [mkOutcomes (HealthOk 25) true true;
                   mkOutcomes (HealthOk 30) true false] ->
     exists load,
       health o = HealthOk load /\
       ((load > CONFIG.LOAD_THRESHOLD)%Z /\
        microserviceProcess (autopilot scaled_up) <> None \/
        (load <= CONFIG.LOAD_THRESHOLD)%Z /\
        microserviceProcess (autopilot scaled_up) = None)) /\
  exists w' evs,
    ticks [mkOutcomes (HealthOk 25) true true;
           mkOutcomes (HealthOk 30) true false] scaled_up = Some w' /\
    microserviceProcess (autopilot w')
    = microserviceProcess (autopilot scaled_up) /\
    isMonitoring (autopilot w') = isMonitoring (autopilot scaled_up) /\
    pollInterval (autopilot w') = pollInterval (autopilot scaled_up) /\
    redirectorStatus w' = redirectorStatus scaled_up /\
    running w' = running scaled_up /\
    nextPid w' = nextPid scaled_up /\
    intervals w' = intervals scaled_up /\
    forceKillTimers w' = forceKillTimers scaled_up /\
    tasks w' = [] /\
    trace w' = evs ++ trace scaled_up /\
    forallb is_passive evs = true.
Proof.
  assert (Hall : forall o, In o [mkOutcomes (HealthOk 25) true true;
                                 mkOutcomes (HealthOk 30) true false] ->
     exists load,
       health o = HealthOk load /\
       ((load > CONFIG.LOAD_THRESHOLD)%Z /\
        microserviceProcess (autopilot scaled_up) <> None \/
        (load <= CONFIG.LOAD_THRESHOLD)%Z /\
        microserviceProcess (autopilot scaled_up) = None)).
  { intros o [<- | [<- | []]].
    - exists 25%Z. split; [reflexivity |]. left. split; [reflexivity |].
      discriminate.
    - exists 30%Z. split; [reflexivity |]. left. split; [reflexivity |].
      discriminate. }
  split; [reflexivity |]. split; [exact Hall |].
  exact (idle_ticks_change_nothing _ scaled_up eq_refl Hall).
Defined.

(** One failed load query below the budget. *)
Lemma tick_failed_query (o : Outcomes) (w : World) :
  tasks w = [] ->
  health o = HealthFail ->
  S (consecutiveErrors (autopilot w)) < maxConsecutiveErrors (autopilot w) ->
  tick o w =
  Some (with_trace
          (Err (L_healthCheckFailed (S (consecutiveErrors (autopilot w)))
                                    (maxConsecutiveErrors (autopilot w)))
           :: GetHealth :: trace w)
          (with_nextTask (S (nextTask w))
             (with_autopilot
                (set_consecutiveErrors (S (consecutiveErrors (autopilot w))))
                w))).
Proof.
  intros Ht Ho Hlt.
  destruct w as [[h m pi ce mx] rs rn fl np iv nt st fk ts ntk tr].
  destruct o as [hr su po].
  cbn [tasks health autopilot consecutiveErrors maxConsecutiveErrors]
    in Ht, Ho, Hlt.
  subst ts hr. sx.
  destruct (Nat.leb_spec mx (S ce)); [lia |]. sx. reflexivity.
Qed.

(** X8. Failed load queries below the error budget are only counted: after
    [n] failed ticks in a row that leave the counter below
    [maxConsecutiveErrors], the counter has grown by [n] and the supervisor
    is otherwise as before: still monitoring if it was, same poll timer,
    same handle, same flag, same children. *)
Theorem failures_below_budget_only_count (os : list Outcomes) (w : World) :
  tasks w = [] ->
  (forall o, In o os -> health o = HealthFail) ->
  consecutiveErrors (autopilot w) + List.length os
  < maxConsecutiveErrors (autopilot w) ->
  exists w',
    ticks os w = Some w' /\
    autopilot w'
    = set_consecutiveErrors (consecutiveErrors (autopilot w) + List.length os)
                            (autopilot w) /\
    redirectorStatus w' = redirectorStatus w /\
    running w' = running w /\
    intervals w' = intervals w /\
    forceKillTimers w' = forceKillTimers w /\
    tasks w' = [].
Proof.
  revert w. induction os as [| o os IH]; intros w Ht Hall Hlt.
  - exists w. cbn [List.length ticks]. rewrite Nat.add_0_r.
    destruct w as [[h m pi ce mx] rs rn fl np iv nt st fk ts ntk tr].
    repeat split. exact Ht.
  - cbn [List.length] in Hlt. cbn [ticks].
    rewrite (tick_failed_query o w Ht (Hall o (or_introl eq_refl)));
      [| lia].
    match goal with
    | |- context [ticks os ?w1] =>
        destruct (IH w1) as (w' & Hr & H1 & H2 & H3 & H4 & H5 & H6)
    end.
    + destruct w as [[h m pi ce mx] rs rn fl np iv nt st fk ts ntk tr].
      exact Ht.
    + intros o' Hin. exact (Hall o' (or_intror Hin)).
    + destruct w as [[h m pi ce mx] rs rn fl np iv nt st fk ts ntk tr].
      cbn in Hlt |- *. lia.
    + exists w'.
      destruct w as [[h m pi ce mx] rs rn fl np iv nt st fk ts ntk tr].
      cbn in H1, H2, H3, H4, H5 |- *.
      split; [exact Hr |].
      split; [rewrite H1; unfold set_consecutiveErrors; cbn; f_equal; lia |].
      repeat (split; [assumption |]). exact H6.
Qed.

Lemma failures_below_budget_only_count_witness :
  tasks scaled_up = [] /\
  (forall o, In o [mkOutcomes HealthFail true true;
                   mkOutcomes HealthFail false false] ->
             health o = HealthFail) /\
  consecutiveErrors (autopilot scaled_up)
  + List.length [mkOutcomes HealthFail true true;
            mkOutcomes HealthFail false false]
  < maxConsecutiveErrors (autopilot scaled_up) /\
  exists w',
    ticks [mkOutcomes HealthFail true true;
           mkOutcomes HealthFail false false] scaled_up = Some w' /\
    autopilot w'
    = set_consecutiveErrors
        (consecutiveErrors (autopilot scaled_up)
         + List.length [mkOutcomes HealthFail true true;
                   mkOutcomes HealthFail false false])
        (autopilot scaled_up) /\
    redirectorStatus w' = redirectorStatus scaled_up /\
    running w' = running scaled_up /\
    intervals w' = intervals scaled_up /\
    forceKillTimers w' = forceKillTimers scaled_up /\
    tasks w' = [].
Proof.
  assert (Hall : forall o, In o [mkOutcomes HealthFail true true;
                                 mkOutcomes HealthFail false false] ->
                           health o = HealthFail)
    by (intros o [<- | [<- | []]]; reflexivity).
  assert (Hlt : consecutiveErrors (autopilot scaled_up)
                + List.length [mkOutcomes HealthFail true true;
                          mkOutcomes HealthFail false false]
                < maxConsecutiveErrors (autopilot scaled_up))
    by (cbn; lia).
  split; [reflexivity |]. split; [exact Hall |]. split; [exact Hlt |].
  exact (failures_below_budget_only_count _ scaled_up eq_refl Hall Hlt).
Defined.

(** X9. [stop()] always returns normally and leaves the supervisor not
    monitoring, with no poll timer and a null handle; it touches neither the
    monolith's flag nor the pending invocations of [checkLoadAndScale].  A
    second [stop()] right after only prints its first line. *)
Theorem stop_is_total_and_idempotent (w : World) :
  exists w',
    stop w = (Ret tt, w') /\
    isMonitoring (autopilot w') = false /\
    pollInterval (autopilot w') = None /\
    microserviceProcess (autopilot w') = None /\
    consecutiveErrors (autopilot w') = consecutiveErrors (autopilot w) /\
    (forall t, pollInterval (autopilot w) = Some t -> ~ In t (intervals w')) /\
    redirectorStatus w' = redirectorStatus w /\
    tasks w' = tasks w /\
    running w' = running w /\
    stop w' = (Ret tt, with_trace (Out L_stopping :: trace w') w').
Proof.
  destruct w as [[h m pi ce mx] rs rn fl np iv nt st fk ts ntk tr].
  destruct pi as [t |], h as [p |]; js;
    try (destruct (mem p fl); js);
    eexists; (split; [reflexivity |]);
    repeat (split; [reflexivity |]);
    (split; [intros t' E; first [discriminate
                                | injection E as <-; apply remove_nat_not_In] |]);
    repeat split.
Qed.

(** X10. A load query that is pending when [stop()] is called is not
    cancelled: when its answer reports a load above the threshold, the
    stopped supervisor still spawns a worker and holds it. *)
Theorem stop_does_not_cancel_pending_query (w : World) (tid : nat)
    (load : Z) :
  lookup_task tid (tasks w) = Some AwaitGet ->
  (load > CONFIG.LOAD_THRESHOLD)%Z ->
  exists w',
    run [LStop; LGetReply tid (HealthOk load)] w = Some w' /\
    isMonitoring (autopilot w') = false /\
    pollInterval (autopilot w') = None /\
    microserviceProcess (autopilot w') = Some (nextPid w) /\
    running w' = nextPid w :: running w /\
    lookup_task tid (tasks w') = Some (AwaitStartup (nextPid w)).
Proof.
  intros Hk Hl.
  destruct w as [[h m pi ce mx] rs rn fl np iv nt st fk ts ntk tr].
  cbn [tasks] in Hk.
  assert (Hset : forall k, lookup_task tid (set_task tid (Some k) ts) = Some k).
  { clear - Hk. intros k. induction ts as [| [i c] r IH]; [discriminate |].
    cbn [lookup_task set_task] in Hk |- *.
    destruct (Nat.eqb tid i) eqn:E.
    - cbn [lookup_task]. now rewrite E.
    - cbn [lookup_task]. rewrite E. auto. }
  destruct pi as [t |], h as [p |]; sx;
    try (destruct (mem p fl); sx);
    rewrite Hk; sx; rewrite (decision_ScaleUp _ _ Hl); sx;
    eexists; (split; [reflexivity |]);
    cbn [autopilot isMonitoring pollInterval microserviceProcess running
         tasks nextPid];
    repeat (split; [reflexivity |]); apply Hset.
Qed.

Lemma stop_does_not_cancel_pending_query_witness :
  lookup_task 0 (tasks first_query) = Some AwaitGet /\
  (25 > CONFIG.LOAD_THRESHOLD)%Z /\
  exists w',
    run [LStop; LGetReply 0 (HealthOk 25)] first_query = Some w' /\
    isMonitoring (autopilot w') = false /\
    pollInterval (autopilot w') = None /\
    microserviceProcess (autopilot w') = Some (nextPid first_query) /\
    running w' = nextPid first_query :: running first_query /\
    lookup_task 0 (tasks w') = Some (AwaitStartup (nextPid first_query)).
Proof.
  split; [reflexivity |]. split; [reflexivity |].
  apply (stop_does_not_cancel_pending_query first_query 0 25); reflexivity.
Defined.

Lemma remove_nat_keeps n m l : m <> n -> In m l -> In m (remove_nat n l).
Proof.
  intros Hne Hin. unfold remove_nat. apply filter_In. split; [exact Hin |].
  destruct (Nat.eqb_spec n m); [congruence | reflexivity].
Qed.

(** X11. The ['exit'] handler clears the handle whichever child exited.
    When a child other than the held one exits (a worker stopped earlier
    that took its time), the supervisor forgets the worker it holds although
    that worker keeps running, and the next tick that sees a load above the
    threshold spawns another worker beside it. *)
Theorem stale_exit_forgets_live_worker (w : World) (p q : pid)
    (o : Outcomes) (load : Z) :
  tasks w = [] ->
  microserviceProcess (autopilot w) = Some q ->
  p <> q ->
  In p (running w) -> In q (running w) ->
  q < nextPid w ->
  (load > CONFIG.LOAD_THRESHOLD)%Z ->
  health o = HealthOk load -> startup o = true ->
  exists w1 w2,
    step (LChildExit p) w = Some w1 /\
    microserviceProcess (autopilot w1) = None /\
    In q (running w1) /\
    tick o w1 = Some w2 /\
    microserviceProcess (autopilot w2) = Some (nextPid w) /\
    nextPid w <> q /\
    In q (running w2) /\ In (nextPid w) (running w2).
Proof.
  intros Ht Hh Hne Hp Hq Hlt Hl Ho Hs.
  destruct w as [[h m pi ce mx] rs rn fl np iv nt st fk ts ntk tr].
  destruct o as [hr su po].
  cbn [tasks autopilot microserviceProcess running nextPid health startup]
    in Ht, Hh, Hp, Hq, Hlt, Ho, Hs.
  subst ts h hr su.
  apply mem_In in Hp.
  assert (Hq' : In q (remove_nat p rn)) by (apply remove_nat_keeps; auto).
  destruct po; sx; rewrite Hp; sx;
    (eexists _, _; split; [reflexivity |]; split; [reflexivity |];
     split; [exact Hq' |]);
    sx; rewrite (decision_ScaleUp _ _ Hl); sx;
    (split; [reflexivity |]); (split; [reflexivity |]);
    (split; [lia |]); (split; [now right | now left]).
Qed.

Lemma stale_exit_forgets_live_worker_witness :
  tasks two_children = [] /\
  microserviceProcess (autopilot two_children) = Some 1 /\
  0 <> 1 /\
  In 0 (running two_children) /\ In 1 (running two_children) /\
  1 < nextPid two_children /\
  (25 > CONFIG.LOAD_THRESHOLD)%Z /\
  health (mkOutcomes (HealthOk 25) true true) = HealthOk 25 /\
  startup (mkOutcomes (HealthOk 25) true true) = true /\
  exists w1 w2,
    step (LChildExit 0) two_children = Some w1 /\
    microserviceProcess (autopilot w1) = None /\
    In 1 (running w1) /\
    tick (mkOutcomes (HealthOk 25) true true) w1 = Some w2 /\
    microserviceProcess (autopilot w2) = Some (nextPid two_children) /\
    nextPid two_children <> 1 /\
    In 1 (running w2) /\ In (nextPid two_children) (running w2).
Proof.
  split; [reflexivity |]. split; [reflexivity |].
  split; [discriminate |].
  split; [cbn; tauto |]. split; [cbn; tauto |].
  split; [cbn; lia |].
  split; [reflexivity |]. split; [reflexivity |]. split; [reflexivity |].
  apply (stale_exit_forgets_live_worker two_children 0 1
           (mkOutcomes (HealthOk 25) true true) 25);
    first [ reflexivity | discriminate | (cbn; tauto) | (cbn; lia) ].
Defined.

(** * The database module *)

Lemma str_eqb_eq (a b : Js.jsstring) : Js.str_eqb a b = true <-> a = b.
Proof.
  revert b. induction a as [| x a IH]; intros [| y b]; cbn;
    try (split; [discriminate | discriminate]);
    try (split; reflexivity).
  rewrite andb_true_iff, N.eqb_eq, IH. split.
  - intros [-> ->]. reflexivity.
  - intros E. injection E as -> ->. split; reflexivity.
Qed.

Lemma str_eqb_refl (a : Js.jsstring) : Js.str_eqb a a = true.
Proof. now apply str_eqb_eq. Qed.

Lemma str_eqb_neq (a b : Js.jsstring) : Js.str_eqb a b = false <-> a <> b.
Proof.
  split.
  - intros H E. apply str_eqb_eq in E. congruence.
  - intros H. destruct (Js.str_eqb a b) eqn:E; [| reflexivity].
    apply str_eqb_eq in E. contradiction.
Qed.

Lemma find_app {A} (f : A -> bool) (l1 l2 : list A) :
  find f (l1 ++ l2)
  = match find f l1 with Some x => Some x | None => find f l2 end.
Proof.
  induction l1 as [| x l1 IH]; cbn; [reflexivity |].
  destruct (f x); [reflexivity | exact IH].
Qed.

(** X12. [findUserByEmail] returns the oldest user with the given email.
    After [addUser] an email that was already taken still finds the older
    user, and an email that was free finds the new user exactly when it is
    [===] to the new user's email; the new user's id is the number of
    users. *)
Theorem findUserByEmail_after_addUser (e e' : Js.value)
    (pw now : Js.jsstring) (db : Database.t) :
  Database.findUserByEmail e (snd (Database.addUser e' pw now db))
  = match Database.findUserByEmail e db with
    | Some u => Some u
    | None =>
        if Js.strict_eqb e' e
        then Some (Database.mkUser (List.length (Database.users db) + 1)
                                   e' pw now)
        else None
    end.
Proof.
  unfold Database.findUserByEmail, Database.addUser. cbn.
  rewrite find_app. cbn. reflexivity.
Qed.

(** X13. [findLinkByShortCode] returns the oldest link with the given short
    code: [addLink] never checks the code, so a link added under a code that
    is already in use is stored but stays hidden behind the older one; a
    link added under a fresh code is found by it. *)
Theorem findLinkByShortCode_after_addLink (c c' url now : Js.jsstring)
    (uid : option nat) (db : Database.t) :
  Database.findLinkByShortCode c (snd (Database.addLink c' url uid now db))
  = match Database.findLinkByShortCode c db with
    | Some l => Some l
    | None =>
        if Js.str_eqb c' c
        then Some (fst (Database.addLink c' url uid now db))
        else None
    end.
Proof.
  unfold Database.findLinkByShortCode, Database.addLink. cbn.
  rewrite find_app. cbn. reflexivity.
Qed.


Lemma findIndex_Some {A} (f : A -> bool) (l : list A) (i : nat) :
  Database.findIndex f l = Some i ->
  exists before x after,
    l = before ++ x :: after /\ List.length before = i /\
    f x = true /\ find f before = None /\ find f l = Some x.
Proof.
  revert i. induction l as [| y l IH]; intros i H; cbn in H; [discriminate |].
  destruct (f y) eqn:Fy.
  - injection H as <-. exists [], y, l. cbn. rewrite Fy. repeat split.
  - destruct (Database.findIndex f l) as [j |] eqn:E; [| discriminate].
    cbn in H. injection H as <-.
    destruct (IH j eq_refl) as (b & x & a & -> & Hl & Fx & Hb & Hf).
    exists (y :: b), x, a. cbn. rewrite Fy, Hl. repeat split; assumption.
Qed.

Lemma findIndex_None {A} (f : A -> bool) (l : list A) :
  Database.findIndex f l = None <-> find f l = None.
Proof.
  induction l as [| y l IH]; cbn; [tauto |].
  destruct (f y); [split; discriminate |].
  destruct (Database.findIndex f l); cbn.
  - split; [discriminate |]. intros H. apply IH in H. discriminate.
  - split; intros _; [now apply IH | reflexivity].
Qed.

Lemma splice1_middle {A} (before after : list A) (x : A) :
  Database.splice1 (List.length before) (before ++ x :: after)
  = ([x], before ++ after).
Proof.
  unfold Database.splice1.
  induction before as [| y b IH]; [reflexivity |].
  cbn [List.length app skipn firstn] in IH |- *.
  injection IH as H1 H2. rewrite H1.
  f_equal. cbn [app]. f_equal. exact H2.
Qed.

(** What [deleteLink] does, by whether a link has the code. *)
Lemma deleteLink_cases (c : Js.jsstring) (db : Database.t) :
  match Database.findLinkByShortCode c db with
  | None => Database.deleteLink c db = (None, db)
  | Some l =>
      exists before after,
        Database.links db = before ++ l :: after /\
        (forall x, In x before -> Database.shortCode x <> c) /\
        Database.shortCode l = c /\
        Database.deleteLink c db
        = (Some l,
           Database.mk (Database.users db) (before ++ after)
                       (Database.analytics db) (Database.loadCounter db)
                       (Database.loadResetInterval db))
  end.
Proof.
  unfold Database.findLinkByShortCode, Database.deleteLink.
  destruct (Database.findIndex
              (fun link => Js.str_eqb (Database.shortCode link) c)
              (Database.links db)) as [i |] eqn:E.
  - destruct (findIndex_Some _ _ _ E) as (b & x & a & Hl & Hi & Fx & Hb & Hf).
    rewrite Hf. exists b, a. split; [exact Hl |]. split; [| split].
    + intros y Hy Hc.
      apply (find_none _ _ Hb) in Hy. cbn in Hy.
      rewrite Hc, str_eqb_refl in Hy. discriminate.
    + now apply str_eqb_eq.
    + rewrite Hl, <- Hi, splice1_middle. reflexivity.
  - apply findIndex_None in E. rewrite E. reflexivity.
Qed.

(** X14. [deleteLink] removes exactly the oldest link with the given short
    code and returns it; all other links stay, in their order, and nothing
    else in the database changes.  When no link has the code it returns null
    and the database is unchanged. *)
Theorem deleteLink_removes_oldest (c : Js.jsstring) (db : Database.t) :
  match Database.findLinkByShortCode c db with
  | None => Database.deleteLink c db = (None, db)
  | Some l =>
      exists before after,
        Database.links db = before ++ l :: after /\
        (forall x, In x before -> Database.shortCode x <> c) /\
        Database.shortCode l = c /\
        Database.deleteLink c db
        = (Some l,
           Database.mk (Database.users db) (before ++ after)
                       (Database.analytics db) (Database.loadCounter db)
                       (Database.loadResetInterval db))
  end.
Proof. exact (deleteLink_cases c db). Qed.

Lemma numbered_nil {A} (id : A -> nat) : numbered id [].
Proof. intros [| i] x H; discriminate. Qed.

Lemma numbered_snoc {A} (id : A -> nat) (l : list A) (x : A) :
  numbered id l -> id x = List.length l + 1 -> numbered id (l ++ [x]).
Proof.
  intros Hl Hx i y Hy.
  destruct (Nat.lt_ge_cases i (List.length l)) as [Hlt | Hge].
  - rewrite nth_error_app1 in Hy by exact Hlt. exact (Hl i y Hy).
  - rewrite nth_error_app2 in Hy by exact Hge.
    destruct (i - List.length l) as [| k] eqn:E.
    + cbn in Hy. injection Hy as <-. rewrite Hx. lia.
    + cbn in Hy. destruct k; discriminate.
Qed.

Lemma run_ops_snoc (ops : list Database.Op) (op : Database.Op)
    (db : Database.t) :
  Database.run_ops (ops ++ [op]) db
  = Database.apply op (Database.run_ops ops db).
Proof. unfold Database.run_ops. now rewrite fold_left_app. Qed.

(** X15. Users and click events are never removed, so in every database
    built from the empty one by the module's operations their ids are
    1, 2, 3, ... in the order of insertion; in particular no two users and
    no two click events share an id. *)
Theorem user_and_click_ids_are_consecutive (ops : list Database.Op) :
  numbered Database.user_id
           (Database.users (Database.run_ops ops Database.new)) /\
  numbered Database.click_id
           (Database.analytics (Database.run_ops ops Database.new)).
Proof.
  induction ops as [| op ops IH] using rev_ind.
  - split; apply numbered_nil.
  - rewrite run_ops_snoc. destruct IH as [Hu Ha].
    set (db := Database.run_ops ops Database.new) in *.
    destruct op; cbn [Database.apply].
    + split; [| exact Ha]. cbn. now apply numbered_snoc.
    + split; assumption.
    + unfold Database.deleteLink.
      destruct (Database.findIndex _ _);
        [destruct (Database.splice1 _ _) |]; split; assumption.
    + split; [exact Hu |]. cbn. now apply numbered_snoc.
    + split; assumption.
    + destruct (Database.loadResetInterval db); split; assumption.
    + split; assumption.
Qed.

(** X16. Link ids are the length of the array plus one, and links can be
    deleted: after a link other than the newest is deleted from a database
    whose links are numbered 1, 2, ..., the next [addLink] hands out the id
    of the newest remaining link a second time. *)
Theorem link_id_reused_after_delete (db db1 : Database.t) (l : Database.Link)
    (c c' url now : Js.jsstring) (uid : option nat) :
  numbered Database.link_id (Database.links db) ->
  Database.deleteLink c db = (Some l, db1) ->
  Database.link_id l < List.length (Database.links db) ->
  exists i a,
    nth_error (Database.links (snd (Database.addLink c' url uid now db1))) i
    = Some a /\
    nth_error (Database.links (snd (Database.addLink c' url uid now db1)))
              (S i)
    = Some (fst (Database.addLink c' url uid now db1)) /\
    Database.link_id a
    = Database.link_id (fst (Database.addLink c' url uid now db1)).
Proof.
  intros Hn Hd Hlt.
  pose proof (deleteLink_cases c db) as Hc.
  destruct (Database.findLinkByShortCode c db) as [l0 |];
    [| rewrite Hc in Hd; discriminate].
  destruct Hc as (before & after & Hl & _ & _ & Hdel).
  rewrite Hdel in Hd. injection Hd as -> <-.
  assert (Hid : Database.link_id l = List.length before + 1).
  { apply Hn. rewrite Hl, nth_error_app2, Nat.sub_diag by lia. reflexivity. }
  rewrite Hl, length_app in Hlt. cbn [List.length] in Hlt.
  destruct (exists_last (l := after)) as (after' & z & ->).
  { intros ->. cbn in Hlt. lia. }
  assert (Hz : Database.link_id z
               = List.length before + List.length after' + 2).
  { replace (List.length before + List.length after' + 2)
      with ((List.length before + 1 + List.length after') + 1) by lia.
    apply Hn. rewrite Hl.
    rewrite nth_error_app2 by lia.
    replace (List.length before + 1 + List.length after'
             - List.length before) with (S (List.length after')) by lia.
    cbn [nth_error]. rewrite nth_error_app2, Nat.sub_diag by lia.
    reflexivity. }
  exists (List.length (before ++ after')), z.
  cbn [Database.addLink Database.links snd fst Database.link_id].
  rewrite !app_assoc. split; [| split].
  - rewrite <- app_assoc. rewrite nth_error_app2 by lia.
    rewrite Nat.sub_diag. reflexivity.
  - rewrite nth_error_app2 by (rewrite length_app; cbn; lia).
    rewrite length_app. cbn [List.length].
    replace (S (List.length (before ++ after'))
             - (List.length (before ++ after') + 1)) with 0 by lia.
    reflexivity.
  - rewrite Hz, !length_app. cbn [List.length]. lia.
Qed.

Lemma link_id_reused_after_delete_witness :
  numbered Database.link_id (Database.links two_links) /\
  Database.deleteLink Js.code_a two_links
  = (Some (Database.mkLink 1 Js.code_a Js.url_a (Some 1) Js.noon 0),
     snd (Database.deleteLink Js.code_a two_links)) /\
  Database.link_id (Database.mkLink 1 Js.code_a Js.url_a (Some 1) Js.noon 0)
  < List.length (Database.links two_links) /\
  exists i a,
    nth_error (Database.links
                 (snd (Database.addLink Js.code_a Js.url_a (Some 1) Js.noon
                         (snd (Database.deleteLink Js.code_a two_links))))) i
    = Some a /\
    nth_error (Database.links
                 (snd (Database.addLink Js.code_a Js.url_a (Some 1) Js.noon
                         (snd (Database.deleteLink Js.code_a two_links)))))
              (S i)
    = Some (fst (Database.addLink Js.code_a Js.url_a (Some 1) Js.noon
                   (snd (Database.deleteLink Js.code_a two_links)))) /\
    Database.link_id a
    = Database.link_id
        (fst (Database.addLink Js.code_a Js.url_a (Some 1) Js.noon
                (snd (Database.deleteLink Js.code_a two_links)))).
Proof.
  assert (Hn : numbered Database.link_id (Database.links two_links)).
  { intros [| [| i]] x H; cbn in H;
      [ injection H as <-; reflexivity
      | injection H as <-; reflexivity
      | destruct i; discriminate ]. }
  assert (Hd : Database.deleteLink Js.code_a two_links
    = (Some (Database.mkLink 1 Js.code_a Js.url_a (Some 1) Js.noon 0),
       snd (Database.deleteLink Js.code_a two_links)))
    by (vm_compute; reflexivity).
  assert (Hlt : Database.link_id
                  (Database.mkLink 1 Js.code_a Js.url_a (Some 1) Js.noon 0)
                < List.length (Database.links two_links))
    by (cbn; lia).
  split; [exact Hn |]. split; [exact Hd |]. split; [exact Hlt |].
  exact (link_id_reused_after_delete two_links _ _ Js.code_a Js.code_a
           Js.url_a Js.noon (Some 1) Hn Hd Hlt).
Defined.

Lemma In_bump_clicks (c : Js.jsstring) (l : list Database.Link)
    (x : Database.Link) :
  In x (Database.bump_clicks c l) ->
  In x l \/
  exists y, In y l /\ Database.shortCode y = c /\
            Database.shortCode x = c /\
            Database.clicks x = Database.clicks y + 1.
Proof.
  induction l as [| y l IH]; cbn; [tauto |].
  destruct (Js.str_eqb (Database.shortCode y) c) eqn:E.
  - intros [<- | H].
    + right. exists y. apply str_eqb_eq in E. cbn. auto.
    + left. now right.
  - intros [<- | H].
    + left. now left.
    + destruct (IH H) as [H' | (z & Hz & Hrest)].
      * left. now right.
      * right. exists z. split; [now right | exact Hrest].
Qed.

Lemma events_for_logClick (c c' now : Js.jsstring) (db : Database.t) :
  Database.events_for c' (snd (Database.logClick c now db))
  = Database.events_for c' db + (if Js.str_eqb c c' then 1 else 0).
Proof.
  unfold Database.events_for, Database.logClick. cbn.
  rewrite filter_app, length_app. cbn.
  destruct (Js.str_eqb c c'); reflexivity.
Qed.

Lemma In_splice1 {A} (i : nat) (l : list A) (x : A) :
  In x (snd (Database.splice1 i l)) -> In x l.
Proof.
  unfold Database.splice1. cbn. intros H.
  apply in_app_or in H. destruct H as [H | H].
  - rewrite <- (firstn_skipn i l). apply in_or_app. now left.
  - rewrite <- (firstn_skipn (S i) l). apply in_or_app. now right.
Qed.

(** X17. In every database built from the empty one by the module's
    operations, no link shows more clicks than there are click events for
    its short code.  (The two can differ: a click on a code without a link
    is still recorded as an event, and a deleted link takes its count with
    it.) *)
Theorem clicks_bounded_by_events (ops : list Database.Op)
    (l : Database.Link) :
  In l (Database.links (Database.run_ops ops Database.new)) ->
  Database.clicks l
  <= Database.events_for (Database.shortCode l)
                         (Database.run_ops ops Database.new).
Proof.
  revert l. induction ops as [| op ops IH] using rev_ind; intros l Hin.
  - destruct Hin.
  - rewrite run_ops_snoc in Hin |- *.
    set (db := Database.run_ops ops Database.new) in *.
    destruct op; cbn [Database.apply] in Hin |- *.
    + exact (IH l Hin).
    + cbn in Hin. apply in_app_or in Hin. destruct Hin as [H | [<- | []]].
      * exact (IH l H).
      * cbn. lia.
    + unfold Database.deleteLink in Hin |- *.
      destruct (Database.findIndex _ _) as [i |]; [| exact (IH l Hin)].
      pose proof (In_splice1 i (Database.links db) l) as Hs.
      destruct (Database.splice1 i (Database.links db)) as [removed rest].
      cbn in Hin, Hs |- *. exact (IH l (Hs Hin)).
    + rewrite events_for_logClick. cbn in Hin.
      destruct (In_bump_clicks _ _ _ Hin) as [H | (y & Hy & Hc & Hx & Hk)].
      * pose proof (IH l H). lia.
      * pose proof (IH y Hy) as Hle. rewrite Hc in Hle.
        rewrite Hx, Hk, str_eqb_refl. lia.
    + exact (IH l Hin).
    + destruct (Database.loadResetInterval db); exact (IH l Hin).
    + exact (IH l Hin).
Qed.

Lemma clicks_bounded_by_events_witness :
  In (Database.mkLink 1 Js.code_a Js.url_a (Some 1) Js.noon 1)
     (Database.links
        (Database.run_ops
           [Database.OpAddLink Js.code_a Js.url_a (Some 1) Js.noon;
            Database.OpLogClick Js.code_b Js.noon;
            Database.OpLogClick Js.code_a Js.noon]
           Database.new)) /\
  Database.clicks (Database.mkLink 1 Js.code_a Js.url_a (Some 1) Js.noon 1)
  <= Database.events_for
       (Database.shortCode
          (Database.mkLink 1 Js.code_a Js.url_a (Some 1) Js.noon 1))
       (Database.run_ops
          [Database.OpAddLink Js.code_a Js.url_a (Some 1) Js.noon;
           Database.OpLogClick Js.code_b Js.noon;
           Database.OpLogClick Js.code_a Js.noon]
          Database.new).
Proof.
  assert (Hin : In (Database.mkLink 1 Js.code_a Js.url_a (Some 1) Js.noon 1)
     (Database.links
        (Database.run_ops
           [Database.OpAddLink Js.code_a Js.url_a (Some 1) Js.noon;
            Database.OpLogClick Js.code_b Js.noon;
            Database.OpLogClick Js.code_a Js.noon]
           Database.new))) by (vm_compute; tauto).
  split; [exact Hin |].
  exact (clicks_bounded_by_events _ _ Hin).
Defined.

(** * The monolith *)

Lemma deleteLink_keeps_rest (c : Js.jsstring) (db : Database.t) :
  Database.users (snd (Database.deleteLink c db)) = Database.users db /\
  Database.analytics (snd (Database.deleteLink c db)) = Database.analytics db /\
  Database.loadCounter (snd (Database.deleteLink c db))
  = Database.loadCounter db /\
  Database.loadResetInterval (snd (Database.deleteLink c db))
  = Database.loadResetInterval db.
Proof.
  unfold Database.deleteLink.
  destruct (Database.findIndex _ _); [| repeat split].
  destruct (Database.splice1 _ _). repeat split.
Qed.

(** While the redirector is inactive no request raises the load counter. *)
Lemma handle_inactive (L : Monolith.Libs) (r : Monolith.Request)
    (s : Monolith.Server) :
  Monolith.redirectorStatus s = inactive ->
  not_status_command r = true ->
  Monolith.redirectorStatus (Monolith.handle L r s) = inactive /\
  Database.loadCounter (Monolith.database (Monolith.handle L r s))
  <= Database.loadCounter (Monolith.database s).
Proof.
  intros Hs Hr. destruct s as [db st q]. cbn in Hs. subst st.
  destruct r; cbn [Monolith.handle not_status_command] in Hr |- *;
    try discriminate; try (split; [reflexivity | cbn; lia]).
  - unfold Monolith.signup, Monolith.signup_hashed.
    destruct (Monolith.signup_check _ _ _ _) as [r | [e []]];
      split; cbn; try reflexivity; lia.
  - unfold Monolith.protected.
    destruct (Monolith.authenticateToken L authorization);
      [split; [reflexivity | cbn; lia] |].
    unfold Monolith.create_link.
    destruct longUrl_ as [url |]; [| split; [reflexivity | cbn; lia]].
    destruct (Js.truthy url), (Monolith.valid_url L url);
      split; cbn; try reflexivity; lia.
  - unfold Monolith.protected.
    destruct (Monolith.authenticateToken L authorization);
      [split; [reflexivity | cbn; lia] |].
    unfold Monolith.delete_link.
    destruct (Database.getLinkByShortCode _ _) as [l |];
      [| split; [reflexivity | cbn; lia]].
    destruct (Database.id_eqb _ _); [| split; [reflexivity | cbn; lia]].
    split; [reflexivity |]. cbn.
    destruct (deleteLink_keeps_rest shortCode_ db) as (_ & _ & -> & _). lia.
  - unfold Monolith.run_immediate. cbn.
    destruct q; split; cbn; try reflexivity; lia.
  - split; [reflexivity |]. cbn.
    destruct (Database.loadResetInterval db); cbn; lia.
Qed.

(** X18. While the monolith's redirector is inactive, nothing that reaches
    the monolith other than a status command raises its load counter or
    changes the flag: redirect requests are passed on before the load is
    counted.  A counter that is at or below the threshold therefore stays
    so whatever the traffic, the health endpoint keeps reporting it, and
    the supervisor's decision for such a sample with a worker running is
    [ScaleDown]. *)
Theorem inactive_monolith_counts_no_load (L : Monolith.Libs)
    (rs : list Monolith.Request) (s : Monolith.Server) :
  Monolith.redirectorStatus s = inactive ->
  forallb not_status_command rs = true ->
  (Z.of_nat (Database.loadCounter (Monolith.database s))
   <= CONFIG.LOAD_THRESHOLD)%Z ->
  exists load,
    Monolith.get_health (Monolith.serve L rs s)
    = Monolith.Json 200 (Monolith.BHealth separated load) /\
    load <= Database.loadCounter (Monolith.database s) /\
    decision (Z.of_nat load) separated true = ScaleDown.
Proof.
  intros Hs Hrs Hle.
  assert (G : Monolith.redirectorStatus (Monolith.serve L rs s) = inactive /\
              Database.loadCounter
                (Monolith.database (Monolith.serve L rs s))
              <= Database.loadCounter (Monolith.database s)).
  { clear Hle. revert s Hs. unfold Monolith.serve.
    induction rs as [| r rs IH]; intros s Hs; cbn [fold_left].
    - split; [exact Hs | lia].
    - cbn [forallb] in Hrs. apply andb_true_iff in Hrs.
      destruct Hrs as [Hr Hrs].
      destruct (handle_inactive L r s Hs Hr) as [H1 H2].
      destruct (IH Hrs (Monolith.handle L r s) H1) as [H3 H4].
      split; [exact H3 | lia]. }
  destruct G as [G1 G2].
  exists (Database.loadCounter (Monolith.database (Monolith.serve L rs s))).
  split; [| split].
  - unfold Monolith.get_health. rewrite G1. reflexivity.
  - exact G2.
  - apply decision_ScaleDown. lia.
Qed.

Lemma inactive_monolith_counts_no_load_witness :
  Monolith.redirectorStatus (Monolith.mkServer Database.new inactive [])
  = inactive /\
  forallb not_status_command
          [Monolith.ReqRedirect Js.code_a; Monolith.ReqRedirect Js.code_b;
           Monolith.ReqHealth] = true /\
  (Z.of_nat (Database.loadCounter
               (Monolith.database
                  (Monolith.mkServer Database.new inactive [])))
   <= CONFIG.LOAD_THRESHOLD)%Z /\
  exists load,
    Monolith.get_health
      (Monolith.serve Monolith.toy_libs
         [Monolith.ReqRedirect Js.code_a; Monolith.ReqRedirect Js.code_b;
          Monolith.ReqHealth]
         (Monolith.mkServer Database.new inactive []))
    = Monolith.Json 200 (Monolith.BHealth separated load) /\
    load <= Database.loadCounter
              (Monolith.database
                 (Monolith.mkServer Database.new inactive [])) /\
    decision (Z.of_nat load) separated true = ScaleDown.
Proof.
  split; [reflexivity |]. split; [reflexivity |].
  split; [cbn; unfold CONFIG.LOAD_THRESHOLD; lia |].
  apply (inactive_monolith_counts_no_load Monolith.toy_libs
           [Monolith.ReqRedirect Js.code_a; Monolith.ReqRedirect Js.code_b;
            Monolith.ReqHealth]
           (Monolith.mkServer Database.new inactive []));
    [reflexivity | reflexivity | cbn; unfold CONFIG.LOAD_THRESHOLD; lia].
Defined.

Lemma redirect_active_state (c : Js.jsstring) (db : Database.t)
    (q : list Js.jsstring) :
  snd (Monolith.redirect c (Monolith.mkServer db active q))
  = Monolith.mkServer (Database.incrementLoad db) active
      (q ++ known_codes [c] db).
Proof.
  unfold Monolith.redirect, known_codes, Database.findLinkByShortCode.
  cbn. destruct (find _ (Database.links db)); cbn;
    [reflexivity | now rewrite app_nil_r].
Qed.

Lemma known_codes_incrementLoad (cs : list Js.jsstring) (db : Database.t) :
  known_codes cs (Database.incrementLoad db) = known_codes cs db.
Proof. reflexivity. Qed.

Lemma serve_redirects (L : Monolith.Libs) (cs : list Js.jsstring)
    (s : Monolith.Server) :
  Monolith.redirectorStatus s = active ->
  Monolith.serve L (map Monolith.ReqRedirect cs) s
  = Monolith.mkServer
      (Database.mk (Database.users (Monolith.database s))
                   (Database.links (Monolith.database s))
                   (Database.analytics (Monolith.database s))
                   (Database.loadCounter (Monolith.database s)
                    + List.length cs)
                   (Database.loadResetInterval (Monolith.database s)))
      active
      (Monolith.immediates s ++ known_codes cs (Monolith.database s)).
Proof.
  unfold Monolith.serve. revert s.
  induction cs as [| c cs IH]; intros [db st q] Hs; cbn in Hs; subst st.
  - destruct db. cbn. rewrite Nat.add_0_r, app_nil_r. reflexivity.
  - cbn [map fold_left Monolith.handle].
    rewrite redirect_active_state, IH by reflexivity.
    cbn [Monolith.database Monolith.immediates].
    rewrite known_codes_incrementLoad.
    destruct db as [us ls an lc tm].
    cbn [Database.incrementLoad Database.users Database.links
         Database.analytics Database.loadCounter Database.loadResetInterval
         List.length].
    rewrite <- app_assoc. f_equal; [f_equal; lia |].
    f_equal. unfold known_codes. cbn [filter].
    destruct (is_some _); reflexivity.
Qed.

Lemma drain_all (now : Js.jsstring) (s : Monolith.Server) :
  let s' := Monolith.drain now (List.length (Monolith.immediates s)) s in
  Monolith.immediates s' = [] /\
  Monolith.redirectorStatus s' = Monolith.redirectorStatus s /\
  Database.users (Monolith.database s')
  = Database.users (Monolith.database s) /\
  Database.loadCounter (Monolith.database s')
  = Database.loadCounter (Monolith.database s) /\
  List.length (Database.analytics (Monolith.database s'))
  = List.length (Database.analytics (Monolith.database s))
    + List.length (Monolith.immediates s) /\
  List.length (Database.links (Monolith.database s'))
  = List.length (Database.links (Monolith.database s)).
Proof.
  destruct s as [db st q]. cbn [Monolith.immediates]. revert db.
  induction q as [| c q IH]; intros db; cbn [List.length Monolith.drain].
  - cbn. repeat split; lia.
  - unfold Monolith.run_immediate. cbn [Monolith.immediates].
    cbn [Monolith.database Monolith.redirectorStatus].
    destruct (IH (snd (Database.logClick c now db)))
      as (H1 & H2 & H3 & H4 & H5 & H6).
    cbn zeta in *. cbn [Monolith.database Monolith.redirectorStatus] in *.
    split; [exact H1 |]. split; [exact H2 |]. split; [exact H3 |].
    split; [exact H4 |]. split.
    + rewrite H5. cbn. rewrite length_app. cbn. lia.
    + rewrite H6. cbn. clear. induction (Database.links db) as [| l ls IHl];
        [reflexivity |].
      cbn. destruct (Js.str_eqb _ _); cbn; [reflexivity | now rewrite IHl].
Qed.

(** X19. While the redirector is active the monolith counts every redirect
    request as load, also a request for a short code that has no link, and
    queues one click per request that finds a link.  After a burst of
    requests and once the queued clicks have run, the load counter has grown
    by the number of requests and the analytics by the number of requests
    whose code had a link. *)
Theorem active_monolith_counts_every_redirect (L : Monolith.Libs)
    (cs : list Js.jsstring) (now : Js.jsstring) (s : Monolith.Server) :
  Monolith.redirectorStatus s = active ->
  Monolith.immediates s = [] ->
  exists s1 s2,
    s1 = Monolith.serve L (map Monolith.ReqRedirect cs) s /\
    s2 = Monolith.drain now (List.length (Monolith.immediates s1)) s1 /\
    Monolith.immediates s1 = known_codes cs (Monolith.database s) /\
    Monolith.immediates s2 = [] /\
    Database.loadCounter (Monolith.database s2)
    = Database.loadCounter (Monolith.database s) + List.length cs /\
    List.length (Database.analytics (Monolith.database s2))
    = List.length (Database.analytics (Monolith.database s))
      + List.length (known_codes cs (Monolith.database s)).
Proof.
  intros Hs Hq.
  eexists _, _. split; [reflexivity |]. split; [reflexivity |].
  rewrite (serve_redirects L cs s Hs), Hq. cbn [app].
  match goal with
  | |- context [Monolith.drain now _ ?s1] =>
      destruct (drain_all now s1) as (H1 & _ & _ & H4 & H5 & _)
  end.
  cbn zeta in *. cbn [Monolith.immediates Monolith.database] in *.
  cbn [Database.loadCounter Database.analytics] in *.
  split; [reflexivity |]. split; [exact H1 |]. split; [exact H4 | exact H5].
Qed.

Lemma active_monolith_counts_every_redirect_witness :
  Monolith.redirectorStatus one_link_server = active /\
  Monolith.immediates one_link_server = [] /\
  exists s1 s2,
    s1 = Monolith.serve Monolith.toy_libs
           (map Monolith.ReqRedirect [Js.code_a; Js.code_b; Js.code_a])
           one_link_server /\
    s2 = Monolith.drain Js.noon (List.length (Monolith.immediates s1)) s1 /\
    Monolith.immediates s1
    = known_codes [Js.code_a; Js.code_b; Js.code_a]
                  (Monolith.database one_link_server) /\
    Monolith.immediates s2 = [] /\
    Database.loadCounter (Monolith.database s2)
    = Database.loadCounter (Monolith.database one_link_server)
      + List.length [Js.code_a; Js.code_b; Js.code_a] /\
    List.length (Database.analytics (Monolith.database s2))
    = List.length (Database.analytics (Monolith.database one_link_server))
      + List.length (known_codes [Js.code_a; Js.code_b; Js.code_a]
                                 (Monolith.database one_link_server)).
Proof.
  split; [reflexivity |]. split; [reflexivity |].
  apply (active_monolith_counts_every_redirect Monolith.toy_libs
           [Js.code_a; Js.code_b; Js.code_a] Js.noon one_link_server);
    reflexivity.
Defined.

Lemma parse_status_string (st : RedirectorStatus) :
  Monolith.parse_status (status_string st) = Some st.
Proof. destruct st; reflexivity. Qed.

Lemma parse_status_Some (str : Js.jsstring) (st : RedirectorStatus) :
  Monolith.parse_status str = Some st -> str = status_string st.
Proof.
  unfold Monolith.parse_status.
  destruct (Js.str_eqb str Js.str_active) eqn:E1.
  - intros H. injection H as <-. now apply str_eqb_eq.
  - destruct (Js.str_eqb str Js.str_inactive) eqn:E2; [| discriminate].
    intros H. injection H as <-. now apply str_eqb_eq.
Qed.

(** X20. The status command accepts exactly the strings ['active'] and
    ['inactive'].  An accepted command sets the flag, reports the previous
    status, leaves the database alone, and the health endpoint then reports
    [integrated] for ['active'] and [separated] for ['inactive'] with the
    load unchanged.  A body without a status, or with any other string,
    is answered 400 and changes nothing. *)
Theorem status_command_round_trip (status : option Js.jsstring)
    (s : Monolith.Server) :
  (forall st, status = Some (status_string st) ->
     Monolith.set_redirector_status status s
     = (Monolith.Json 200
          (Monolith.BStatusUpdated (Monolith.redirectorStatus s) st),
        Monolith.mkServer (Monolith.database s) st (Monolith.immediates s)) /\
     Monolith.get_health (snd (Monolith.set_redirector_status status s))
     = Monolith.Json 200
         (Monolith.BHealth (api_health st)
            (Database.loadCounter (Monolith.database s)))) /\
  ((forall st, status <> Some (status_string st)) ->
     Monolith.set_redirector_status status s
     = (Monolith.Json 400 (Monolith.BError Monolith.Err_invalidStatus), s)).
Proof.
  split.
  - intros st ->. unfold Monolith.set_redirector_status.
    rewrite parse_status_string. split; reflexivity.
  - intros H. unfold Monolith.set_redirector_status.
    destruct status as [str |]; [| reflexivity].
    destruct (Monolith.parse_status str) as [st |] eqn:E; [| reflexivity].
    apply parse_status_Some in E. subst str. now destruct (H st).
Qed.

Lemma In_remove_middle {A} (before after : list A) (x y : A) :
  In y (before ++ x :: after) -> y <> x -> In y (before ++ after).
Proof.
  intros H Hne. apply in_app_or in H. apply in_or_app.
  destruct H as [H | [H | H]]; [now left | congruence | now right].
Qed.

(** X21. A delete request never removes a link of another user: whatever
    the [Authorization] header and the short code, every stored link that
    does not belong to the user the token names is still stored afterwards.
    (A request without a valid token removes nothing at all.) *)
Theorem delete_spares_other_users_links (L : Monolith.Libs)
    (authorization : option Js.jsstring) (c : Js.jsstring)
    (s : Monolith.Server) (l : Database.Link) :
  In l (Database.links (Monolith.database s)) ->
  (forall id e, Monolith.authenticateToken L authorization
                = Monolith.Next id e ->
                Database.userId l <> Some id) ->
  In l (Database.links
          (Monolith.database
             (Monolith.handle L (Monolith.ReqDeleteLink authorization c) s))).
Proof.
  intros Hin Hother. cbn [Monolith.handle]. unfold Monolith.protected.
  destruct (Monolith.authenticateToken L authorization) as [r | id e];
    [exact Hin |].
  specialize (Hother id e eq_refl).
  unfold Monolith.delete_link, Database.getLinkByShortCode.
  pose proof (deleteLink_cases c (Monolith.database s)) as Hc.
  unfold Database.findLinkByShortCode in Hc.
  destruct (find _ (Database.links (Monolith.database s))) as [l0 |];
    [| exact Hin].
  destruct (Database.id_eqb (Database.userId l0) (Some id)) eqn:E;
    [| exact Hin].
  destruct Hc as (before & after & Hl & _ & _ & Hdel).
  cbn [snd Monolith.with_database Monolith.database].
  rewrite Hdel. cbn [snd Database.links].
  rewrite Hl in Hin. apply (In_remove_middle before after l0 l Hin).
  intros ->. apply Hother.
  destruct (Database.userId l0) as [u |]; cbn in E; [| discriminate].
  apply Nat.eqb_eq in E. now subst.
Qed.

Lemma delete_spares_other_users_links_witness :
  In (Database.mkLink 1 Js.code_a Js.url_a (Some 1) Js.noon 0)
     (Database.links (Monolith.database one_link_server)) /\
  (forall id e,
     Monolith.authenticateToken Monolith.toy_libs
       (Some (Js.lit_bearer ++ 2%N :: Js.bob))
     = Monolith.Next id e ->
     Database.userId (Database.mkLink 1 Js.code_a Js.url_a (Some 1) Js.noon 0)
     <> Some id) /\
  In (Database.mkLink 1 Js.code_a Js.url_a (Some 1) Js.noon 0)
     (Database.links
        (Monolith.database
           (Monolith.handle Monolith.toy_libs
              (Monolith.ReqDeleteLink
                 (Some (Js.lit_bearer ++ 2%N :: Js.bob)) Js.code_a)
              one_link_server))).
Proof.
  assert (Hin : In (Database.mkLink 1 Js.code_a Js.url_a (Some 1) Js.noon 0)
     (Database.links (Monolith.database one_link_server)))
    by (cbn; tauto).
  assert (Ho : forall id e,
     Monolith.authenticateToken Monolith.toy_libs
       (Some (Js.lit_bearer ++ 2%N :: Js.bob))
     = Monolith.Next id e ->
     Database.userId (Database.mkLink 1 Js.code_a Js.url_a (Some 1) Js.noon 0)
     <> Some id).
  { intros id e H. vm_compute in H. injection H as <- _. discriminate. }
  split; [exact Hin |]. split; [exact Ho |].
  exact (delete_spares_other_users_links Monolith.toy_libs _ Js.code_a
           one_link_server _ Hin Ho).
Defined.

(** ** The redirector microservice *)

Lemma microservice_empty_handle (r : Microservice.Request)
    (s : Microservice.Server) :
  microservice_empty s -> microservice_empty (Microservice.handle r s).
Proof.
  intros [Hl Hi]. destruct s as [db im]. cbn in Hl, Hi. subst im.
  destruct r as [path | now |]; cbn [Microservice.handle].
  - unfold Microservice.get.
    destruct (Microservice.dispatch path) as [[ | | | ] |];
      cbn [snd]; try (split; [exact Hl | reflexivity]).
    unfold Microservice.redirect, Database.findLinkByShortCode.
    cbn [Database.incrementLoad Database.links Microservice.database
         Microservice.immediates].
    rewrite Hl. cbn [find snd]. split; [exact Hl | reflexivity].
  - split; [exact Hl | reflexivity].
  - split; [| reflexivity].
    cbn. destruct (Database.loadResetInterval db); exact Hl.
Qed.

Lemma microservice_empty_serve (rs : list Microservice.Request)
    (s : Microservice.Server) :
  microservice_empty s -> microservice_empty (Microservice.serve rs s).
Proof.
  revert s. induction rs as [| r rs IH]; intros s H; [exact H |].
  apply IH. now apply microservice_empty_handle.
Qed.

Lemma dispatch_segment (seg : Js.jsstring) :
  Js.truthy seg = true ->
  Microservice.dispatch [seg] = Some Microservice.HRedirect.
Proof.
  intros H. unfold Microservice.dispatch, Microservice.routes.
  cbn [find fst Microservice.matches]. now rewrite H.
Qed.

(** X22. No request reaches the microservice's [/health] handler: the
    route [/:shortCode] is registered before it and matches every path of
    one segment, so [GET /health] is answered by the redirect handler, as a
    request for the short code ['health'] that also counts as load. *)
Theorem health_route_is_shadowed (path : list Js.jsstring)
    (s : Microservice.Server) :
  Microservice.dispatch path <> Some Microservice.HHealth /\
  Microservice.get [Js.str_health] s
  = Microservice.redirect Js.str_health s.
Proof.
  split.
  - unfold Microservice.dispatch, Microservice.routes.
    destruct path as [| seg [| seg' rest]].
    + cbn. discriminate.
    + destruct seg as [| c r].
      * cbn. discriminate.
      * cbn. discriminate.
    + cbn. discriminate.
  - unfold Microservice.get. rewrite dispatch_segment; reflexivity.
Qed.

(** X23. The microservice never finds a link.  It runs as a process of its
    own, starts with an empty database and has no request that adds a link,
    so after any requests each path of one segment is answered 404; the
    request is still counted as load, and no click is queued. *)
Theorem microservice_knows_no_link (rs : list Microservice.Request)
    (seg : Js.jsstring) :
  Js.truthy seg = true ->
  Microservice.get [seg] (Microservice.serve rs Microservice.boot)
  = (Microservice.Json 404 Microservice.BNotFound,
     Microservice.mkServer
       (Database.incrementLoad
          (Microservice.database (Microservice.serve rs Microservice.boot)))
       []).
Proof.
  intros Hseg.
  assert (He : microservice_empty (Microservice.serve rs Microservice.boot))
    by (apply microservice_empty_serve; split; reflexivity).
  destruct He as [Hl Hi].
  unfold Microservice.get. rewrite (dispatch_segment seg Hseg).
  cbn [hd]. unfold Microservice.redirect, Database.findLinkByShortCode.
  cbn [Database.incrementLoad Database.links].
  rewrite Hl, Hi. reflexivity.
Qed.

Lemma microservice_knows_no_link_witness :
  Js.truthy Js.code_a = true /\
  Microservice.get [Js.code_a]
    (Microservice.serve
       [Microservice.ReqGet [Js.code_b]; Microservice.TurnImmediate Js.noon;
        Microservice.ReqGet [Js.str_health]]
       Microservice.boot)
  = (Microservice.Json 404 Microservice.BNotFound,
     Microservice.mkServer
       (Database.incrementLoad
          (Microservice.database
             (Microservice.serve
                [Microservice.ReqGet [Js.code_b];
                 Microservice.TurnImmediate Js.noon;
                 Microservice.ReqGet [Js.str_health]]
                Microservice.boot)))
       []).
Proof.
  split; [reflexivity |].
  exact (microservice_knows_no_link
           [Microservice.ReqGet [Js.code_b]; Microservice.TurnImmediate Js.noon;
            Microservice.ReqGet [Js.str_health]]
           Js.code_a eq_refl).
Defined.

(** ** The monolith's link manager and accounts *)

Lemma id_eqb_eq (a b : option nat) : Database.id_eqb a b = true <-> a = b.
Proof.
  destruct a as [x |], b as [y |]; cbn; try (split; congruence).
  rewrite Nat.eqb_eq. split; congruence.
Qed.

Lemma id_eqb_neq (a b : option nat) : a <> b -> Database.id_eqb a b = false.
Proof.
  intros H. destruct (Database.id_eqb a b) eqn:E; [| reflexivity].
  apply id_eqb_eq in E. contradiction.
Qed.

Lemma id_eqb_refl (a : option nat) : Database.id_eqb a a = true.
Proof. now apply id_eqb_eq. Qed.

(** X24. A link created with the token of user [id] (not 0), a non-empty
    long URL that parses, is appended to that user's list with the next id,
    the short code drawn, no clicks and the user as owner, and the list of
    every other user is what it was. *)
Theorem created_link_is_listed_for_its_owner_only (L : Monolith.Libs)
    (authorization : option Js.jsstring) (id : nat) (e : Js.value)
    (url c now : Js.jsstring) (s : Monolith.Server) :
  Monolith.authenticateToken L authorization = Monolith.Next id e ->
  id <> 0 ->
  Js.truthy url = true ->
  Monolith.valid_url L url = true ->
  let s' :=
    Monolith.handle L (Monolith.ReqCreateLink authorization (Some url) c now) s
  in
  Monolith.list_links id s'
  = Monolith.Json 200
      (Monolith.BLinks
         (Database.getLinksByUserId (Some id) (Monolith.database s)
          ++ [Database.mkLink
                (List.length (Database.links (Monolith.database s)) + 1)
                c url (Some id) now 0])) /\
  forall id', id' <> id ->
    Monolith.list_links id' s' = Monolith.list_links id' s.
Proof.
  intros Hauth Hid Hurl Hvalid s'. subst s'.
  cbn [Monolith.handle]. unfold Monolith.protected. rewrite Hauth.
  unfold Monolith.create_link. rewrite Hurl, Hvalid.
  unfold Database.addLink, Monolith.list_links, Database.getLinksByUserId.
  cbn [snd Monolith.with_database Monolith.database Database.links].
  assert (Hor : Database.or_null (Some id) = Some id)
    by (destruct id; [contradiction | reflexivity]).
  rewrite Hor. split.
  - rewrite filter_app. cbn [filter Database.userId].
    now rewrite id_eqb_refl.
  - intros id' Hne. rewrite filter_app. cbn [filter Database.userId].
    rewrite id_eqb_neq by congruence. now rewrite app_nil_r.
Qed.

Lemma created_link_is_listed_for_its_owner_only_witness :
  Monolith.list_links 2
    (Monolith.handle Monolith.toy_libs
       (Monolith.ReqCreateLink (Some (Js.lit_bearer ++ 2%N :: Js.bob))
          (Some Js.url_b) Js.code_b Js.noon)
       one_link_server)
  = Monolith.Json 200
      (Monolith.BLinks
         [Database.mkLink 2 Js.code_b Js.url_b (Some 2) Js.noon 0]) /\
  Monolith.list_links 1
    (Monolith.handle Monolith.toy_libs
       (Monolith.ReqCreateLink (Some (Js.lit_bearer ++ 2%N :: Js.bob))
          (Some Js.url_b) Js.code_b Js.noon)
       one_link_server)
  = Monolith.list_links 1 one_link_server.
Proof.
  assert (Ha : Monolith.authenticateToken Monolith.toy_libs
                 (Some (Js.lit_bearer ++ 2%N :: Js.bob))
               = Monolith.Next 2 (Js.VString Js.bob))
    by (vm_compute; reflexivity).
  assert (Hid : 2 <> 0) by discriminate.
  assert (Hu : Js.truthy Js.url_b = true) by reflexivity.
  assert (Hv : Monolith.valid_url Monolith.toy_libs Js.url_b = true)
    by reflexivity.
  destruct (created_link_is_listed_for_its_owner_only Monolith.toy_libs
              (Some (Js.lit_bearer ++ 2%N :: Js.bob)) 2 (Js.VString Js.bob)
              Js.url_b
              Js.code_b Js.noon one_link_server Ha Hid Hu Hv) as [H1 H2].
  split; [exact H1 |]. apply H2. discriminate.
Defined.

Lemma split_from_no_space (cur w : Js.jsstring) :
  ~ In 32%N w -> Monolith.split_from cur w = [rev cur ++ w].
Proof.
  revert cur. induction w as [| c r IH]; intros cur H.
  - cbn. now rewrite app_nil_r.
  - cbn [Monolith.split_from]. destruct (N.eqb_spec c 32) as [-> | Hc].
    + exfalso. apply H. now left.
    + rewrite IH by (intros Hin; apply H; now right).
      cbn [rev]. now rewrite <- app_assoc.
Qed.

Lemma split_from_word (cur w rest : Js.jsstring) :
  ~ In 32%N w ->
  Monolith.split_from cur (w ++ 32%N :: rest)
  = (rev cur ++ w) :: Monolith.split_from [] rest.
Proof.
  revert cur. induction w as [| c r IH]; intros cur H.
  - cbn. now rewrite app_nil_r.
  - cbn [app Monolith.split_from]. destruct (N.eqb_spec c 32) as [-> | Hc].
    + exfalso. apply H. now left.
    + rewrite IH by (intros Hin; apply H; now right).
      cbn [rev]. now rewrite <- app_assoc.
Qed.

Lemma split_from_head (cur s : Js.jsstring) :
  exists more,
    Monolith.split_from cur s = (rev cur ++ until_space s) :: more.
Proof.
  revert cur. induction s as [| c r IH]; intros cur.
  - exists []. cbn. now rewrite app_nil_r.
  - cbn [Monolith.split_from until_space]. destruct (N.eqb c 32).
    + eexists. now rewrite app_nil_r.
    + destruct (IH (c :: cur)) as [more ->]. exists more.
      cbn [rev]. now rewrite <- app_assoc.
Qed.

(** X25. [authenticateToken] answers 401 when there is no [Authorization]
    header or the header has no space.  Otherwise it takes the text between
    the first and the second space (up to the end when there is no second
    space): 401 without calling [jwt.verify] when that text is empty, 403
    when [jwt.verify] rejects it, [next()] with the decoded user when it
    accepts it.  The word before the first space and whatever follows the
    second are not looked at, so any scheme is as good as [Bearer]. *)
Theorem authenticateToken_reads_second_word (L : Monolith.Libs)
    (scheme rest : Js.jsstring) :
  ~ In 32%N scheme ->
  Monolith.authenticateToken L None
  = Monolith.Answered
      (Monolith.Json 401 (Monolith.BError Monolith.Err_tokenRequired)) /\
  Monolith.authenticateToken L (Some scheme)
  = Monolith.Answered
      (Monolith.Json 401 (Monolith.BError Monolith.Err_tokenRequired)) /\
  Monolith.authenticateToken L (Some (scheme ++ 32%N :: rest))
  = if Js.truthy (until_space rest) then
      match Monolith.jwt_verify L (until_space rest) with
      | None =>
          Monolith.Answered
            (Monolith.Json 403 (Monolith.BError Monolith.Err_invalidToken))
      | Some (id, e) => Monolith.Next id e
      end
    else
      Monolith.Answered
        (Monolith.Json 401 (Monolith.BError Monolith.Err_tokenRequired)).
Proof.
  intros Hs. split; [reflexivity |]. split.
  - unfold Monolith.authenticateToken, Monolith.split_space.
    destruct scheme as [| c r]; [reflexivity |].
    cbn [Js.truthy]. now rewrite split_from_no_space.
  - unfold Monolith.authenticateToken, Monolith.split_space.
    assert (Hh : Js.truthy (scheme ++ 32%N :: rest) = true)
      by (destruct scheme; reflexivity).
    rewrite Hh, split_from_word by exact Hs.
    destruct (split_from_head [] rest) as [more ->].
    cbn [nth_error rev app]. reflexivity.
Qed.

Lemma authenticateToken_reads_second_word_witness :
  Monolith.authenticateToken Monolith.toy_libs
    (Some (Js.secret ++ 32%N :: (2%N :: Js.bob) ++ 32%N :: Js.alice))
  = Monolith.Next 2 (Js.VString Js.bob) /\
  Monolith.authenticateToken Monolith.toy_libs
    (Some (Js.secret ++ 32%N :: 32%N :: 2%N :: Js.bob))
  = Monolith.Answered
      (Monolith.Json 401 (Monolith.BError Monolith.Err_tokenRequired)).
Proof.
  assert (Hs : ~ In 32%N Js.secret).
  { intros H. vm_compute in H.
    repeat (destruct H as [H | H]; [discriminate |]). exact H. }
  split.
  - exact (proj2 (proj2 (authenticateToken_reads_second_word Monolith.toy_libs
                           Js.secret ((2%N :: Js.bob) ++ 32%N :: Js.alice)
                           Hs))).
  - exact (proj2 (proj2 (authenticateToken_reads_second_word Monolith.toy_libs
                           Js.secret (32%N :: 2%N :: Js.bob) Hs))).
Defined.

Lemma strict_eqb_refl (v : Js.value) : Js.strict_eqb v v = true.
Proof.
  destruct v as [| | b | n | x | r items | r fields]; cbn;
    try reflexivity.
  - now destruct b.
  - apply Z.eqb_refl.
  - apply str_eqb_refl.
  - apply Nat.eqb_refl.
  - apply Nat.eqb_refl.
Qed.

Lemma find_none_email (e : Js.value) (us : list Database.User) :
  find (fun user => Js.strict_eqb (Database.email user) e) us = None ->
  ~ In e (map Database.email us).
Proof.
  induction us as [| u r IH]; cbn [find map]; [intros _ [] |].
  destruct (Js.strict_eqb (Database.email u) e) eqn:E; [discriminate |].
  intros H [Hin | Hin].
  - subst e. now rewrite strict_eqb_refl in E.
  - now apply IH.
Qed.

(** Requests leave the users alone, except a signup that passes its checks,
    which appends one user whose email was not stored. *)
Lemma handle_users (L : Monolith.Libs) (r : Monolith.Request)
    (s : Monolith.Server) :
  Database.users (Monolith.database (Monolith.handle L r s))
  = Database.users (Monolith.database s) \/
  exists u,
    Database.findUserByEmail (Database.email u) (Monolith.database s) = None /\
    Database.users (Monolith.database (Monolith.handle L r s))
    = Database.users (Monolith.database s) ++ [u].
Proof.
  destruct r as [c | | st | e p salt now | e p | a u c now | a | a c | | now |];
    cbn [Monolith.handle]; try (left; reflexivity).
  - left. unfold Monolith.redirect.
    destruct (Monolith.redirectorStatus s); [| reflexivity].
    destruct (Database.findLinkByShortCode _ _); reflexivity.
  - left. unfold Monolith.set_redirector_status.
    destruct st as [str |]; [| reflexivity].
    destruct (Monolith.parse_status str); reflexivity.
  - unfold Monolith.signup.
    destruct (Monolith.signup_check L e p s) as [resp | [e' p']] eqn:E;
      [left; reflexivity |].
    unfold Monolith.signup_check in E.
    destruct (Js.truthy_value e && Js.truthy_value p); [| discriminate].
    destruct (Monolith.lt_6 L (Monolith.length_of p)) as [[|] |];
      try discriminate.
    destruct (Database.findUserByEmail e (Monolith.database s)) eqn:F;
      [discriminate |].
    injection E as <- <-.
    unfold Monolith.signup_hashed.
    destruct p; try (left; reflexivity).
    right. eexists. split; [| reflexivity]. exact F.
  - left. unfold Monolith.protected.
    destruct (Monolith.authenticateToken L a); [reflexivity |].
    unfold Monolith.create_link.
    destruct u as [url |]; [| reflexivity].
    destruct (Js.truthy url); [| reflexivity].
    destruct (Monolith.valid_url L url); reflexivity.
  - left. unfold Monolith.protected.
    destruct (Monolith.authenticateToken L a); [reflexivity |].
    unfold Monolith.delete_link.
    destruct (Database.getLinkByShortCode c (Monolith.database s));
      [| reflexivity].
    destruct (Database.id_eqb _ _); [| reflexivity].
    unfold Database.deleteLink.
    destruct (Database.findIndex _ _); reflexivity.
  - left. unfold Monolith.run_immediate.
    destruct (Monolith.immediates s); reflexivity.
  - left. cbn. destruct (Database.loadResetInterval _); reflexivity.
Qed.

Lemma signup_check_passes (L : Monolith.Libs) (e : Js.value) (p : Js.jsstring)
    (s : Monolith.Server) :
  Js.truthy_value e = true -> 6 <= List.length p ->
  Database.findUserByEmail e (Monolith.database s) = None ->
  Monolith.signup_check L e (Js.VString p) s = inr (e, Js.VString p).
Proof.
  intros He Hp Hf. unfold Monolith.signup_check. rewrite He, Hf.
  assert (Ht : Js.truthy p = true)
    by (destruct p; [cbn in Hp; lia | reflexivity]).
  cbn [Js.truthy_value andb Monolith.length_of Monolith.lt_6]. rewrite Ht.
  assert (Hl : (Z.of_nat (List.length p) <? 6)%Z = false)
    by (apply Z.ltb_ge; lia).
  now rewrite Hl.
Qed.

(** X26. As long as no two signups overlap, no two accounts share an email
    that is a string, a number or a boolean: after any requests to a freshly
    started monolith, each handled to its end before the next, those stored
    emails are pairwise distinct.  An email sent as an array is compared by
    reference: when no stored email is that very array, a signup with it and
    a password string of six or more characters is accepted whatever the
    array holds, so accounts with equal array emails can pile up. *)
Theorem emails_are_unique (L : Monolith.Libs) (rs : list Monolith.Request) :
  NoDup (filter Js.by_value
           (map Database.email
              (Database.users
                 (Monolith.database (Monolith.serve L rs Monolith.boot))))) /\
  (forall s ref items p salt now,
      6 <= List.length p ->
      (forall u items', In u (Database.users (Monolith.database s)) ->
                        Database.email u <> Js.VArray ref items') ->
      Monolith.signup L (Js.VArray ref items) (Js.VString p) salt now s
      = Monolith.signup_store L (Js.VArray ref items)
          (Monolith.bcrypt_hash L salt p) now s).
Proof.
  split.
  - apply NoDup_filter.
    assert (H : forall s,
      NoDup (map Database.email (Database.users (Monolith.database s))) ->
      NoDup (map Database.email
               (Database.users (Monolith.database (Monolith.serve L rs s))))).
    { induction rs as [| r rs IH]; intros s Hs; [exact Hs |].
      cbn [Monolith.serve fold_left]. apply IH.
      destruct (handle_users L r s) as [-> | (u & Hnone & ->)]; [exact Hs |].
      rewrite map_app. cbn [map].
      apply (NoDup_Add (a := Database.email u)
               (l := map Database.email
                       (Database.users (Monolith.database s)))).
      - rewrite <- (app_nil_r (map _ _)) at 1. apply Add_app.
      - split; [exact Hs |]. now apply find_none_email. }
    apply H. constructor.
  - intros s ref items p salt now Hp Hfresh.
    unfold Monolith.signup.
    rewrite (signup_check_passes L (Js.VArray ref items) p s eq_refl Hp);
      [reflexivity |].
    unfold Database.findUserByEmail.
    destruct (find _ _) as [u |] eqn:F; [| reflexivity].
    apply find_some in F. destruct F as [Hin Heq].
    destruct (Database.email u) as [| | b | n | x | r items' | r fields] eqn:E;
      cbn in Heq; try discriminate.
    apply Nat.eqb_eq in Heq. subst r.
    exfalso. exact (Hfresh u items' Hin E).
Qed.

(** Two signups, one after the other, with arrays that hold the same email:
    both are stored. *)
Example equal_array_emails_pile_up :
  map Database.email
    (Database.users
       (Monolith.database
          (Monolith.serve Monolith.toy_libs
             [Monolith.ReqSignup (Js.VArray 0 [Js.VString Js.alice])
                (Js.VString Js.secret) Js.code_a Js.noon;
              Monolith.ReqSignup (Js.VArray 1 [Js.VString Js.alice])
                (Js.VString Js.secret) Js.code_b Js.noon]
             Monolith.boot)))
  = [Js.VArray 0 [Js.VString Js.alice]; Js.VArray 1 [Js.VString Js.alice]].
Proof. vm_compute. reflexivity. Qed.

(** X27. The signup handler checks that the email is free before it waits
    for the hash and stores the account after it, without checking again.
    Two signups for one free email that overlap are therefore both answered
    201 and leave two accounts with that email and consecutive ids. *)
Theorem overlapping_signups_share_an_email (L : Monolith.Libs)
    (e p1 p2 salt1 salt2 now1 now2 : Js.jsstring) (s : Monolith.Server) :
  Js.truthy e = true -> 6 <= List.length p1 -> 6 <= List.length p2 ->
  Database.findUserByEmail (Js.VString e) (Monolith.database s) = None ->
  let n := List.length (Database.users (Monolith.database s)) in
  let u1 := Database.mkUser (n + 1) (Js.VString e)
              (Monolith.bcrypt_hash L salt1 p1) now1 in
  let u2 := Database.mkUser (n + 2) (Js.VString e)
              (Monolith.bcrypt_hash L salt2 p2) now2 in
  exists s',
    Monolith.signup_overlapped L (Js.VString e) (Js.VString p1)
      (Js.VString e) (Js.VString p2) salt1 salt2 now1 now2 s
    = (Monolith.Json 201
         (Monolith.BUserCreated (Monolith.without_password u1)
            (Monolith.generateToken L u1)),
       Monolith.Json 201
         (Monolith.BUserCreated (Monolith.without_password u2)
            (Monolith.generateToken L u2)),
       s') /\
    Database.users (Monolith.database s')
    = Database.users (Monolith.database s) ++ [u1; u2] /\
    ~ NoDup (map Database.email (Database.users (Monolith.database s'))).
Proof.
  intros He Hp1 Hp2 Hf n u1 u2. subst n u1 u2.
  unfold Monolith.signup_overlapped.
  rewrite (signup_check_passes L (Js.VString e) p1 s He Hp1 Hf).
  rewrite (signup_check_passes L (Js.VString e) p2 s He Hp2 Hf).
  unfold Monolith.signup_hashed, Monolith.signup_store, Database.addUser.
  cbn [Monolith.with_database Monolith.database Database.users].
  rewrite length_app. cbn [List.length].
  replace (List.length (Database.users (Monolith.database s)) + 1 + 1)
    with (List.length (Database.users (Monolith.database s)) + 2) by lia.
  eexists. split; [reflexivity |].
  cbn [Monolith.with_database Monolith.database Database.users].
  rewrite <- app_assoc. split; [reflexivity |].
  rewrite map_app. cbn [map app Database.email].
  intros Hnd. apply NoDup_remove_2 in Hnd. apply Hnd.
  apply in_or_app. right. now left.
Qed.

Lemma overlapping_signups_share_an_email_witness :
  exists s',
    Monolith.signup_overlapped Monolith.toy_libs
      (Js.VString Js.alice) (Js.VString Js.secret)
      (Js.VString Js.alice) (Js.VString Js.secret)
      Js.code_a Js.code_b Js.noon Js.noon Monolith.boot
    = (Monolith.Json 201
         (Monolith.BUserCreated
            (Monolith.mkUserResponse 1 (Js.VString Js.alice) Js.noon)
            (1%N :: Js.alice)),
       Monolith.Json 201
         (Monolith.BUserCreated
            (Monolith.mkUserResponse 2 (Js.VString Js.alice) Js.noon)
            (2%N :: Js.alice)),
       s') /\
    Database.users (Monolith.database s')
    = [Database.mkUser 1 (Js.VString Js.alice) (Js.code_a ++ Js.secret)
         Js.noon;
       Database.mkUser 2 (Js.VString Js.alice) (Js.code_b ++ Js.secret)
         Js.noon] /\
    ~ NoDup (map Database.email (Database.users (Monolith.database s'))).
Proof.
  assert (He : Js.truthy Js.alice = true) by reflexivity.
  assert (Hp : 6 <= List.length Js.secret) by (vm_compute; lia).
  assert (Hf : Database.findUserByEmail (Js.VString Js.alice)
                 (Monolith.database Monolith.boot) = None) by reflexivity.
  exact (overlapping_signups_share_an_email Monolith.toy_libs Js.alice
           Js.secret Js.secret Js.code_a Js.code_b Js.noon Js.noon
           Monolith.boot He Hp Hp Hf).
Defined.

Lemma serve_users_prefix (L : Monolith.Libs) (rs : list Monolith.Request)
    (s : Monolith.Server) :
  exists more,
    Database.users (Monolith.database (Monolith.serve L rs s))
    = Database.users (Monolith.database s) ++ more.
Proof.
  revert s. induction rs as [| r rs IH]; intros s.
  - exists []. cbn. now rewrite app_nil_r.
  - cbn [Monolith.serve fold_left].
    destruct (IH (Monolith.handle L r s)) as [more Hm].
    unfold Monolith.serve in Hm. rewrite Hm.
    destruct (handle_users L r s) as [-> | (u & _ & ->)].
    + now exists more.
    + exists (u :: more). now rewrite <- app_assoc.
Qed.

(** X28. As long as no two signups overlap, an account that was created
    with a string email can log in from then on.  After a signup for a free
    email with a password of six or more characters that is handled to its
    end before the next request, and any further requests handled likewise,
    a login with the same email and password is answered 200 with the user
    of the signup and a token for it, provided [bcrypt.compare] accepts the
    password against its own hash. *)
Theorem login_after_signup (L : Monolith.Libs)
    (e p salt now : Js.jsstring) (rs : list Monolith.Request)
    (s : Monolith.Server) :
  Monolith.bcrypt_compare L p (Monolith.bcrypt_hash L salt p) = true ->
  Js.truthy e = true -> 6 <= List.length p ->
  Database.findUserByEmail (Js.VString e) (Monolith.database s) = None ->
  let u :=
    Database.mkUser (List.length (Database.users (Monolith.database s)) + 1)
                    (Js.VString e) (Monolith.bcrypt_hash L salt p) now in
  Monolith.login L (Js.VString e) (Js.VString p)
    (Monolith.serve L
       (Monolith.ReqSignup (Js.VString e) (Js.VString p) salt now :: rs) s)
  = Monolith.Json 200
      (Monolith.BLoginSuccessful (Monolith.without_password u)
         (Monolith.generateToken L u)).
Proof.
  intros Hc He Hp Hf u.
  assert (Ht : Js.truthy p = true)
    by (destruct p; [cbn in Hp; lia | reflexivity]).
  cbn [Monolith.serve fold_left Monolith.handle].
  destruct (serve_users_prefix L rs
              (snd (Monolith.signup L (Js.VString e) (Js.VString p) salt now
                      s)))
    as [more Hm].
  unfold Monolith.serve in Hm.
  unfold Monolith.login, Database.findUserByEmail.
  cbn [Js.truthy_value]. rewrite He, Ht, Hm. cbn [andb].
  unfold Monolith.signup.
  rewrite (signup_check_passes L (Js.VString e) p s He Hp Hf).
  unfold Monolith.signup_hashed, Monolith.signup_store, Database.addUser.
  cbn [snd Monolith.with_database Monolith.database Database.users].
  unfold Database.findUserByEmail in Hf.
  rewrite !find_app, Hf. cbn [find Database.email Js.strict_eqb].
  rewrite str_eqb_refl. cbn [Database.password]. rewrite Hc. reflexivity.
Qed.

Lemma login_after_signup_witness :
  Monolith.login Monolith.toy_libs (Js.VString Js.alice)
    (Js.VString Js.secret)
    (Monolith.serve Monolith.toy_libs
       [Monolith.ReqSignup (Js.VString Js.alice) (Js.VString Js.secret)
          Js.code_a Js.noon;
        Monolith.ReqSignup (Js.VString Js.bob) (Js.VString Js.secret)
          Js.code_b Js.noon;
        Monolith.ReqSignup (Js.VString Js.alice) (Js.VString Js.url_a)
          Js.code_b Js.noon]
       Monolith.boot)
  = Monolith.Json 200
      (Monolith.BLoginSuccessful
         (Monolith.mkUserResponse 1 (Js.VString Js.alice) Js.noon)
         (1%N :: Js.alice)).
Proof.
  assert (Hc : Monolith.bcrypt_compare Monolith.toy_libs Js.secret
                 (Monolith.bcrypt_hash Monolith.toy_libs Js.code_a Js.secret)
               = true) by (vm_compute; reflexivity).
  assert (He : Js.truthy Js.alice = true) by reflexivity.
  assert (Hp : 6 <= List.length Js.secret) by (vm_compute; lia).
  assert (Hf : Database.findUserByEmail (Js.VString Js.alice)
                 (Monolith.database Monolith.boot) = None) by reflexivity.
  exact (login_after_signup Monolith.toy_libs Js.alice Js.secret Js.code_a
           Js.noon
           [Monolith.ReqSignup (Js.VString Js.bob) (Js.VString Js.secret)
              Js.code_b Js.noon;
            Monolith.ReqSignup (Js.VString Js.alice) (Js.VString Js.url_a)
              Js.code_b Js.noon]
           Monolith.boot Hc He Hp Hf).
Defined.

(** Without that proviso it fails: of two overlapping signups for one free
    email both are answered 201, and the login with the password of the
    second is refused, because [findUserByEmail] returns the account of the
    first. *)
Example login_fails_after_overlapping_signup :
  exists r1 r2 s',
    Monolith.signup_overlapped Monolith.toy_libs
      (Js.VString Js.alice) (Js.VString Js.secret)
      (Js.VString Js.alice) (Js.VString Js.url_a)
      Js.code_a Js.code_b Js.noon Js.noon Monolith.boot
    = (Monolith.Json 201 r1, Monolith.Json 201 r2, s') /\
    Monolith.login Monolith.toy_libs (Js.VString Js.alice)
      (Js.VString Js.url_a) s'
    = Monolith.Json 401 (Monolith.BError Monolith.Err_invalidCredentials).
Proof. do 3 eexists. split; vm_compute; reflexivity. Qed.

(** ** The burst test *)

(** X29. The three counts of the burst test split its results: each
    result of [createLink] is counted exactly once, as successful, as rate
    limited (a rejection with status 429) or as another failure. *)
Theorem burst_counts_partition (os : list RateLimitTest.Outcome) :
  let linkResults := map RateLimitTest.createLink os in
  RateLimitTest.successful linkResults
  + RateLimitTest.rateLimited linkResults
  + RateLimitTest.failed linkResults
  = List.length os.
Proof.
  cbn zeta.
  unfold RateLimitTest.successful, RateLimitTest.rateLimited,
    RateLimitTest.failed.
  induction os as [| o os IH]; [reflexivity |].
  cbn [map filter List.length].
  destruct o as [| code]; cbn [RateLimitTest.createLink RateLimitTest.success
    RateLimitTest.status RateLimitTest.is_429 negb andb].
  - cbn [List.length]. lia.
  - destruct (RateLimitTest.is_429 code); cbn [List.length negb]; lia.
Qed.

(** X30. This monolith refuses every request of the burst test.  The test
    posts [{ url }] where the handler reads [longUrl], so whatever the
    token the answer is 401, 403 or 400, no link is stored, and
    [createLink] returns a failure that is not a rate limit. *)
Theorem burst_request_creates_no_link (L : Monolith.Libs)
    (authorization : option Js.jsstring) (c now : Js.jsstring)
    (s : Monolith.Server) :
  exists code e,
    RateLimitTest.post_link L authorization c now s
    = (Monolith.Json code (Monolith.BError e), s) /\
    (code = 400 \/ code = 401 \/ code = 403) /\
    RateLimitTest.createLink (RateLimitTest.axios_outcome code)
    = RateLimitTest.mkResult false (Some code) /\
    RateLimitTest.is_429 (Some code) = false.
Proof.
  unfold RateLimitTest.post_link, Monolith.protected,
    Monolith.authenticateToken.
  destruct authorization as [h |].
  - destruct (Js.truthy h).
    + destruct (nth_error (Monolith.split_space h) 1) as [tok |].
      * destruct (Js.truthy tok).
        -- destruct (Monolith.jwt_verify L tok) as [[id e] |].
           ++ exists 400, Monolith.Err_longUrlRequired. cbn. tauto.
           ++ exists 403, Monolith.Err_invalidToken. cbn. tauto.
        -- exists 401, Monolith.Err_tokenRequired. cbn. tauto.
      * exists 401, Monolith.Err_tokenRequired. cbn. tauto.
    + destruct (Js.truthy h).
      * destruct (Monolith.jwt_verify L h) as [[id e] |].
        -- exists 400, Monolith.Err_longUrlRequired. cbn. tauto.
        -- exists 403, Monolith.Err_invalidToken. cbn. tauto.
      * exists 401, Monolith.Err_tokenRequired. cbn. tauto.
  - exists 401, Monolith.Err_tokenRequired. cbn. tauto.
Qed.
